(** * Okta flowpack, "AWS Utilities - EC2 PowerCycle with auto-update DNS"

    A shallow embedding of the two Lambda handlers of the flowpack,

      - [lambda_PowerCycle.py]  (module [PowerCycle]), and
      - [lambda_UpdateDNS.py]   (module [UpdateDNS]),

    together with the properties their specification states about them.

    Python values that travel through the handlers (the incoming event, the
    response bodies handed to [json.dumps]) are modelled by the type [json];
    a Python [str] is a [string] whose characters are read as code points
    below 256.  The AWS SDK is an environment [AWS World] of fallible
    operations over an abstract world; every operation the handlers invoke
    is logged in a trace of [call]s, so that "no API call is issued" and
    "exactly k calls are issued" are statements about that trace.  Python
    exceptions are the [Raise] outcome of the monad [M]; [try_except] is the
    [try: ... except ...:] statement.  Logging is not modelled. *)

From Stdlib Require Import String Ascii List ZArith Bool Lia Arith.
Import ListNotations.
Open Scope string_scope.
Open Scope list_scope.

Set Implicit Arguments.
Set Warnings "-register-all".

(** ** Python strings *)

Module PyStr.

(** [str.isspace] on one code point below 256: TAB..CR, FS..US, space,
    NEL (0x85) and NBSP (0xA0). *)
Definition is_space (c : ascii) : bool :=
  let n := nat_of_ascii c in
  (((9 <=? n) && (n <=? 13)) || ((28 <=? n) && (n <=? 32))
   || (n =? 133) || (n =? 160))%nat.

Definition is_empty (s : string) : bool :=
  match s with EmptyString => true | String _ _ => false end.

Fixpoint lstrip (s : string) : string :=
  match s with
  | EmptyString => EmptyString
  | String c s' => if is_space c then lstrip s' else s
  end.

Fixpoint rstrip (s : string) : string :=
  match s with
  | EmptyString => EmptyString
  | String c s' =>
      let r := rstrip s' in
      if is_space c && is_empty r then EmptyString else String c r
  end.

(** [s.strip()] *)
Definition strip (s : string) : string := rstrip (lstrip s).

(** [str.lower] on one code point below 256: A-Z and the Latin-1 capitals
    0xC0-0xDE (without the multiplication sign 0xD7) move up by 32. *)
Definition lower_char (c : ascii) : ascii :=
  let n := nat_of_ascii c in
  if (((65 <=? n) && (n <=? 90))
      || ((192 <=? n) && (n <=? 222) && negb (n =? 215)))%nat
  then ascii_of_nat (n + 32) else c.

(** [s.lower()] *)
Fixpoint lower (s : string) : string :=
  match s with
  | EmptyString => EmptyString
  | String c s' => String (lower_char c) (lower s')
  end.

(** [s.split(',')]: never the empty list, [''.split(',') = ['']]. *)
Fixpoint split_comma (s : string) : list string :=
  match s with
  | EmptyString => [EmptyString]
  | String c s' =>
      if Ascii.eqb c ","%char then EmptyString :: split_comma s'
      else match split_comma s' with
           | t :: ts => String c t :: ts
           | [] => [String c EmptyString]
           end
  end.

(** How an f-string renders a value that may be [None]. *)
Definition fmt_opt (o : option string) : string :=
  match o with Some s => s | None => "None" end.

End PyStr.

(** ** JSON values and Python truthiness *)

Inductive json : Type :=
| JNull
| JBool (b : bool)
| JNum (z : Z)
| JStr (s : string)
| JList (l : list json)
| JObj (o : list (string * json)).

(** A Python [dict] with string keys, in insertion order. *)
Definition dict := list (string * json).

(** [d.get(k)], as an option: [None] when the key is absent. *)
Fixpoint get (k : string) (d : dict) : option json :=
  match d with
  | [] => None
  | (k', v) :: d' => if String.eqb k k' then Some v else get k d'
  end.

(** [bool(v)] *)
Definition truthy (v : json) : bool :=
  match v with
  | JNull => false
  | JBool b => b
  | JNum z => negb (Z.eqb z 0)
  | JStr s => negb (PyStr.is_empty s)
  | JList l => match l with [] => false | _ => true end
  | JObj o => match o with [] => false | _ => true end
  end.

Definition type_name (v : json) : string :=
  match v with
  | JNull => "NoneType"
  | JBool _ => "bool"
  | JNum _ => "int"
  | JStr _ => "str"
  | JList _ => "list"
  | JObj _ => "dict"
  end.

(** The value Lambda hands back: [{"statusCode": ..., "body": json.dumps(...)}].
    [body] is the object given to [json.dumps]. *)
Record response : Type := { statusCode : Z; body : dict }.

(** ** Exceptions, and the monad of handler code *)

Inductive exn : Type :=
| ClientError (code message : option string) (text : string)
    (* botocore.exceptions.ClientError with
       e.response.get("Error", {}).get("Code") / .get("Message"),
       and str(e) *)
| PyException (text : string).
    (* any other Exception; [text] is str(e) *)

(** [str(e)] *)
Definition exn_text (e : exn) : string :=
  match e with
  | ClientError _ _ text => text
  | PyException text => text
  end.

Inductive result (A : Type) : Type :=
| Ok (a : A)
| Raise (e : exn).
Arguments Ok {A} a.
Arguments Raise {A} e.

(** ** The AWS SDK *)

Record tag : Type := { Key : string; Value : string }.

Record instance : Type := {
  InstanceId : string;
  StateName : string;                  (* instance['State']['Name'] *)
  Tags : option (list tag);            (* None: no 'Tags' key *)
  PublicIpAddress : option string      (* None: no 'PublicIpAddress' key *)
}.

(** [reservation.get('Instances', [])] and [page.get('Reservations', [])]. *)
Record reservation : Type := { Instances : list instance }.
Record page : Type := { Reservations : list reservation }.

(** Every SDK operation the two handlers use. *)
Inductive call : Type :=
| CreateEc2Client (region : json)
| PaginateDescribeInstances (region : json)
| DescribeInstances (region : json) (instance_id : json)
| StartInstances (region : json) (instance_id : string)
| StopInstances (region : json) (instance_id : string)
| CreateRoute53Client
| ChangeResourceRecordSets (zone name ip : string) (ttl : Z).

Record AWS (World : Type) : Type := {
  ec2_client : json -> World -> result unit * World;
  paginate_describe_instances : json -> World -> result (list page) * World;
  describe_instances : json -> json -> World -> result (list reservation) * World;
  start_instances : json -> string -> World -> result unit * World;
  stop_instances : json -> string -> World -> result unit * World;
  route53_client : World -> result unit * World;
  change_resource_record_sets :
    string -> string -> string -> Z -> World -> result dict * World
}.

Section Monad.

Variable World : Type.

(** The world and the calls issued so far, oldest first. *)
Definition state : Type := (World * list call)%type.

Definition M (A : Type) : Type := state -> result A * state.

Definition ret {A} (a : A) : M A := fun s => (Ok a, s).

Definition bind {A B} (m : M A) (f : A -> M B) : M B :=
  fun s =>
    match m s with
    | (Ok a, s') => f a s'
    | (Raise e, s') => (Raise e, s')
    end.

Definition raise {A} (e : exn) : M A := fun s => (Raise e, s).

(** [try: m  except Exception as e: h e] *)
Definition try_except {A} (m : M A) (h : exn -> M A) : M A :=
  fun s =>
    match m s with
    | (Ok a, s') => (Ok a, s')
    | (Raise e, s') => h e s'
    end.

(** One SDK operation: run it on the world and log it. *)
Definition invoke {A} (c : call) (op : World -> result A * World) : M A :=
  fun s =>
    let (r, w') := op (fst s) in (r, (w', snd s ++ [c])).

End Monad.

Arguments ret {World A} a.
Arguments bind {World A B} m f.
Arguments raise {World A} e.
Arguments try_except {World A} m h.
Arguments invoke {World A} c op.

Declare Scope py_scope.
Delimit Scope py_scope with py.
Notation "x <- m ;; k" := (bind m (fun x => k))
  (at level 100, m at next level, right associativity) : py_scope.
Notation "m ;;; k" := (bind m (fun _ => k))
  (at level 100, right associativity) : py_scope.
Open Scope py_scope.

(** String concatenation, as f-strings build messages. *)
Infix "+++" := String.append (right associativity, at level 60) : string_scope.

(** ** lambda_PowerCycle.py *)

Module PowerCycle.

Import PyStr.

(** *** The instance-ID pattern, [re.compile(r"^i-[0-9a-f]{17}$")] *)

Definition is_lower_hex (c : ascii) : bool :=
  let n := nat_of_ascii c in
  (((48 <=? n) && (n <=? 57)) || ((97 <=? n) && (n <=? 102)))%nat.

(** [[0-9a-f]{n}] at the head of [s]; what follows it. *)
Fixpoint hex_run (n : nat) (s : string) : option string :=
  match n with
  | O => Some s
  | S n' =>
      match s with
      | String c s' => if is_lower_hex c then hex_run n' s' else None
      | EmptyString => None
      end
  end.

(** [instance_id_regex.match(s)].  In Python [$] matches at the end of the
    string and also just before a newline that ends the string. *)
Definition instance_id_regex_match (s : string) : bool :=
  match s with
  | String "i" (String "-" rest) =>
      match hex_run 17 rest with
      | Some EmptyString => true
      | Some (String c EmptyString) => Ascii.eqb c "010"%char
      | _ => false
      end
  | _ => false
  end.

(** The pattern in the specification's words: ["i-"] followed by exactly
    17 lowercase hexadecimal characters. *)
Fixpoint all_lower_hex (s : string) : bool :=
  match s with
  | EmptyString => true
  | String c s' => is_lower_hex c && all_lower_hex s'
  end.

Definition is_instance_id (s : string) : bool :=
  match s with
  | String "i" (String "-" rest) =>
      Nat.eqb (String.length rest) 17 && all_lower_hex rest
  | _ => false
  end.

(** *** Responses *)

Definition message_only (code : Z) (message : string) : response :=
  {| statusCode := code; body := [("message", JStr message)] |}.

Definition invalid_format_reason : string :=
  "Invalid EC2 instance ID format (must be i-xxxxxxxxxxxxxxxxx)".

Definition failed_entry (instance_id reason : string) : json :=
  JObj [("instance_id", JStr instance_id); ("reason", JStr reason)].

(** Lines 81-89: the reply when "all" selects nothing. *)
Definition no_target_response (operation region : string) : response :=
  {| statusCode := 200;
     body := [("message", JStr ("No instances found in suitable state for '"
                                +++ operation +++ "' operation in region '"
                                +++ region +++ "'."));
              ("operation", JStr operation);
              ("successful_instances", JList []);
              ("failed_instances", JList [])] |}.

(** Lines 138-144. *)
Definition all_invalid_response (failed_initial : list json) : response :=
  {| statusCode := 400;
     body := [("message",
               JStr "All provided EC2 instance IDs had an invalid format.");
              ("invalid_instances", JList failed_initial)] |}.

(** *** Field validation, lines 16-42 *)

Definition validate (event : dict)
  : response + (string * string * string) :=
  match get "region" event with
  | Some (JStr r) =>
      if is_empty (strip r)
      then inl (message_only 400 "Missing or invalid 'region' in event.")
      else
        let region := strip r in
        match get "operation" event with
        | Some (JStr operation) =>
            if String.eqb operation "start" || String.eqb operation "stop"
            then
              match get "instances" event with
              | Some (JStr i) =>
                  if is_empty (strip i)
                  then inl (message_only 400
                    "Missing or invalid 'instances' in event. Must be 'all' or a comma-separated list of EC2 instance IDs.")
                  else inr (region, operation, strip i)
              | _ => inl (message_only 400
                    "Missing or invalid 'instances' in event. Must be 'all' or a comma-separated list of EC2 instance IDs.")
              end
            else inl (message_only 400
              "Missing or invalid 'operation' in event. Must be 'start' or 'stop'.")
        | _ => inl (message_only 400
              "Missing or invalid 'operation' in event. Must be 'start' or 'stop'.")
        end
  | _ => inl (message_only 400 "Missing or invalid 'region' in event.")
  end.

(** *** Instance resolution *)

(** Lines 67-76, the body of the innermost loop over the listing. *)
Definition select_step (operation : string) (instances_to_process : list string)
    (i : instance) : list string :=
  let instance_id := InstanceId i in
  let instance_state := StateName i in
  if String.eqb operation "start"
     && (String.eqb instance_state "stopped"
         || String.eqb instance_state "stopping")
  then instances_to_process ++ [instance_id]
  else if String.eqb operation "stop"
          && (String.eqb instance_state "running"
              || String.eqb instance_state "pending")
  then instances_to_process ++ [instance_id]
  else instances_to_process.

(** Lines 64-76: pages, reservations, instances. *)
Definition select_instances (operation : string) (pages : list page)
  : list string :=
  fold_left
    (fun acc pg =>
       fold_left
         (fun acc rsv => fold_left (select_step operation) (Instances rsv) acc)
         (Reservations pg) acc)
    pages [].

(** Lines 112-125, the body of the loop over the comma-separated tokens;
    the accumulator is
    [(instances_to_process, failed_initial_validation_instances)]. *)
Definition resolve_step (acc : list string * list json)
    (instance_id_str : string) : list string * list json :=
  let cleaned_id := strip instance_id_str in
  if is_empty cleaned_id then acc
  else if instance_id_regex_match cleaned_id
  then (fst acc ++ [cleaned_id], snd acc)
  else (fst acc, snd acc ++ [failed_entry cleaned_id invalid_format_reason]).

(** Lines 108-125. *)
Definition resolve_list (instances_input : string)
  : list string * list json :=
  fold_left resolve_step (split_comma instances_input) ([], []).

Section Handler.

Variable World : Type.
Variable aws : AWS World.

(** Lines 47-54. *)
Definition create_client (region : string) : M World (option response) :=
  try_except
    (invoke (CreateEc2Client (JStr region)) (ec2_client aws (JStr region)) ;;;
     ret None)
    (fun _ => ret (Some (message_only 500
       ("Failed to initialize EC2 client for region " +++ region +++ ".")))).

(** Lines 57-104: the "all" selector. *)
Definition resolve_all (region operation : string)
  : M World (response + (list string * list json)) :=
  try_except
    (pages <- invoke (PaginateDescribeInstances (JStr region))
                     (paginate_describe_instances aws (JStr region)) ;;
     match select_instances operation pages with
     | [] => ret (inl (no_target_response operation region))
     | instances_to_process => ret (inr (instances_to_process, []))
     end)
    (fun e =>
       match e with
       | ClientError _ error_message _ =>
           ret (inl (message_only 500
             ("Failed to list all instances in " +++ region +++ ": "
              +++ fmt_opt error_message)))
       | PyException text =>
           ret (inl (message_only 500
             ("Unexpected error listing all instances in " +++ region +++ ": "
              +++ text)))
       end).

(** Lines 56-125. *)
Definition resolve (region operation instances_input : string)
  : M World (response + (list string * list json)) :=
  if String.eqb (lower instances_input) "all"
  then resolve_all region operation
  else ret (inr (resolve_list instances_input)).

(** Lines 160-165: the one SDK call of an iteration. *)
Definition power_call (region operation instance_id : string) : M World unit :=
  if String.eqb operation "start"
  then invoke (StartInstances (JStr region) instance_id)
              (start_instances aws (JStr region) instance_id)
  else if String.eqb operation "stop"
  then invoke (StopInstances (JStr region) instance_id)
              (stop_instances aws (JStr region) instance_id)
  else ret tt.

(** Lines 158-185: the execution loop, threading
    [successful_operations] and [failed_operations]. *)
Fixpoint execute (region operation : string) (ids : list string)
    (successful_operations : list string) (failed_operations : list json)
  : M World (list string * list json) :=
  match ids with
  | [] => ret (successful_operations, failed_operations)
  | instance_id :: rest =>
      r <- try_except
             (power_call region operation instance_id ;;;
              ret (successful_operations ++ [instance_id], failed_operations))
             (fun e =>
                match e with
                | ClientError error_code error_message _ =>
                    ret (successful_operations,
                         failed_operations ++
                         [failed_entry instance_id
                            ("AWS API Error: [" +++ fmt_opt error_code +++ "] "
                             +++ fmt_opt error_message)])
                | PyException text =>
                    ret (successful_operations,
                         failed_operations ++
                         [failed_entry instance_id
                            ("Unexpected error: " +++ text)])
                end) ;;
      execute region operation rest (fst r) (snd r)
  end.

(** Lines 187-216. *)
Definition aggregate (operation region : string)
    (successful_operations : list string) (failed_operations : list json)
  : response :=
  let '(status_code, overall_message) :=
    match successful_operations, failed_operations with
    | [], _ :: _ =>
        (500%Z, "Failed to " +++ operation
                +++ " any of the specified instances. Check 'failed_instances' for details.")
    | _ :: _, _ :: _ =>
        (200%Z, "Successfully initiated " +++ operation
                +++ " for some instances, others failed. Check results for details.")
    | _, [] =>
        (200%Z, "Successfully initiated " +++ operation
                +++ " for all specified instances.")
    end in
  {| statusCode := status_code;
     body := [("message", JStr overall_message);
              ("operation", JStr operation);
              ("successful_instances", JList (map JStr successful_operations));
              ("failed_instances", JList failed_operations);
              ("region", JStr region)] |}.

Definition lambda_handler (event : dict) : M World response :=
  match validate event with
  | inl early => ret early
  | inr (region, operation, instances_input) =>
      client <- create_client region ;;
      match client with
      | Some early => ret early
      | None =>
          resolved <- resolve region operation instances_input ;;
          match resolved with
          | inl early => ret early
          | inr ([], []) =>
              ret (message_only 400
                     "No valid EC2 instance IDs provided for processing.")
          | inr ([], failed_initial) =>
              ret (all_invalid_response failed_initial)
          | inr (instances_to_process, failed_initial) =>
              r <- execute region operation instances_to_process
                           [] failed_initial ;;
              ret (aggregate operation region (fst r) (snd r))
          end
      end
  end.

End Handler.

End PowerCycle.

(** ** lambda_UpdateDNS.py *)

Module UpdateDNS.

Import PyStr.

Definition HOSTED_ZONE_ID : string := "Z00000000X0XXXXXXXXX".
Definition DNS_RECORD_TTL : Z := 30.

(** [d.get(k, default)] *)
Definition get_or (k : string) (default : json) (d : dict) : json :=
  match get k d with Some v => v | None => default end.

Definition opt_json (o : option string) : json :=
  match o with Some s => JStr s | None => JNull end.

(** Truthiness of a value that is [None] or a [str]. *)
Definition str_truthy (o : option string) : bool :=
  match o with Some s => negb (is_empty s) | None => false end.

(** Lines 74-78: one pass over the tags, assigning [dns_name] at every
    'PublicDNS' key and [ec2_name] at every 'Name' key. *)
Definition scan_step (acc : option string * option string) (t : tag)
  : option string * option string :=
  let acc1 := if String.eqb (Key t) "PublicDNS"
              then (Some (Value t), snd acc) else acc in
  if String.eqb (Key t) "Name" then (fst acc1, Some (Value t)) else acc1.

Definition scan_tags (tags : list tag) : option string * option string :=
  fold_left scan_step tags (None, None).

(** Lines 70-92: the DNS name of an instance; [None] is the branch that
    returns 400. *)
Definition resolve_dns_name (i : instance) : option string :=
  let names := match Tags i with
               | Some tags => scan_tags tags
               | None => (None, None)
               end in
  let dns_name := fst names in
  let ec2_name := snd names in
  if negb (str_truthy dns_name)
  then (if str_truthy ec2_name then ec2_name else None)
  else dns_name.

(** Lines 86-92. *)
Definition no_dns_name_response (i : instance) : response :=
  {| statusCode := 400;
     body := [("status", JStr "error");
              ("message", JStr ("Cannot determine DNS name for instance '"
                                +++ InstanceId i
                                +++ "': No tags found on the instance."))] |}.

(** Lines 104-118. *)
Definition skipped_result (i : instance) (dns_name : string)
    (ip_address : option string) : dict :=
  let reason_msg :=
    if is_empty dns_name
    then "Missing or empty 'PublicDNS' and no usable 'Name' tag." else "" in
  let reason_msg :=
    if negb (str_truthy ip_address)
    then (if negb (is_empty reason_msg) then reason_msg +++ " And "
          else reason_msg) +++ "missing 'PublicIpAddress'."
    else reason_msg in
  let msg := "Skipping instance '" +++ InstanceId i +++ "': " +++ reason_msg in
  [("instance_id", JStr (InstanceId i));
   ("action", JStr "skipped");
   ("reason", JStr msg);
   ("status", JStr "skipped")].

(** [result.get('status') == 'error'] *)
Definition status_is_error (update_result : dict) : bool :=
  match get "status" update_result with
  | Some (JStr s) => String.eqb s "error"
  | _ => false
  end.

(** [any(result.get('status') == 'error' for result in update_results)] *)
Definition any_error (update_results : list dict) : bool :=
  existsb status_is_error update_results.

Section Handler.

Variable World : Type.
Variable aws : AWS World.

(** How [str()] renders an event value that is not a string; an f-string
    shows a string as it is. *)
Variable render : json -> string.

Definition fmt (v : json) : string :=
  match v with JStr s => s | _ => render v end.

(** [v.get(k)] where [v] need not be a dict. *)
Definition method_get (v : json) (k : string) : M World json :=
  match v with
  | JObj o => ret (get_or k JNull o)
  | _ => raise (PyException
           ("'" +++ type_name v +++ "' object has no attribute 'get'"))
  end.

(** Lines 175-232. *)
Definition do_dns_update (hosted_zone_id dns_name ip_address : string)
    (ttl : Z) : M World dict :=
  try_except
    (invoke CreateRoute53Client (route53_client aws) ;;;
     response <- invoke
       (ChangeResourceRecordSets hosted_zone_id dns_name ip_address ttl)
       (change_resource_record_sets aws hosted_zone_id dns_name ip_address ttl) ;;
     let change_info := get_or "ChangeInfo" (JObj []) response in
     method_get change_info "Id" ;;;
     ret [("dns_name", JStr dns_name);
          ("ip_address", JStr ip_address);
          ("action", JStr "UPSERT");
          ("change_info", change_info);
          ("status", JStr "success")])
    (fun e =>
       match e with
       | ClientError error_code error_message _ =>
           ret [("dns_name", JStr dns_name);
                ("ip_address", JStr ip_address);
                ("action", JStr "UPSERT");
                ("status", JStr "error");
                ("error_code", opt_json error_code);
                ("error_message", opt_json error_message)]
       | PyException text =>
           ret [("dns_name", JStr dns_name);
                ("ip_address", JStr ip_address);
                ("action", JStr "UPSERT");
                ("status", JStr "error");
                ("error_message",
                 JStr ("Unexpected error updating DNS record for "
                       +++ dns_name +++ " to " +++ ip_address +++ ": "
                       +++ text))]
       end).

(** Lines 46-62. *)
Definition describe (region instance_id : json)
  : M World (response + list reservation) :=
  try_except
    (reservations <- invoke (DescribeInstances region instance_id)
                            (describe_instances aws region instance_id) ;;
     ret (inr reservations))
    (fun e =>
       match e with
       | ClientError _ error_message _ =>
           ret (inl {| statusCode := 404;
                       body := [("status", JStr "error");
                                ("message",
                                 JStr ("Failed to describe instance "
                                       +++ fmt instance_id +++ ": "
                                       +++ fmt_opt error_message))] |})
       | PyException text =>
           ret (inl {| statusCode := 500;
                       body := [("status", JStr "error");
                                ("message",
                                 JStr ("Unexpected error describing instance "
                                       +++ fmt instance_id +++ ": "
                                       +++ text))] |})
       end).

(** Lines 69-118: one iteration of the inner loop; [inl] is a [return]. *)
Definition process_instance (i : instance) : M World (response + dict) :=
  match resolve_dns_name i with
  | None => ret (inl (no_dns_name_response i))
  | Some dns_name =>
      match PublicIpAddress i with
      | Some ip_address =>
          if negb (is_empty dns_name) && negb (is_empty ip_address)
          then update_result <- do_dns_update HOSTED_ZONE_ID dns_name
                                              ip_address DNS_RECORD_TTL ;;
               ret (inr update_result)
          else ret (inr (skipped_result i dns_name (Some ip_address)))
      | None => ret (inr (skipped_result i dns_name None))
      end
  end.

(** Lines 66-118: the loop over the instances of one reservation. *)
Fixpoint process_instances (insts : list instance)
    (found_instance_details : bool) (update_results : list dict)
  : M World (response + (bool * list dict)) :=
  match insts with
  | [] => ret (inr (found_instance_details, update_results))
  | i :: rest =>
      r <- process_instance i ;;
      match r with
      | inl early => ret (inl early)
      | inr update_result =>
          process_instances rest true (update_results ++ [update_result])
      end
  end.

(** Lines 65-118: the loop over the reservations. *)
Fixpoint process_reservations (reservations : list reservation)
    (found_instance_details : bool) (update_results : list dict)
  : M World (response + (bool * list dict)) :=
  match reservations with
  | [] => ret (inr (found_instance_details, update_results))
  | rsv :: rest =>
      r <- process_instances (Instances rsv) found_instance_details
                             update_results ;;
      match r with
      | inl early => ret (inl early)
      | inr (found, results) => process_reservations rest found results
      end
  end.

(** Lines 120-131. *)
Definition not_found_response (instance_id region : json) : response :=
  {| statusCode := 404;
     body := [("status", JStr "error");
              ("message", JStr ("Instance with ID '" +++ fmt instance_id
                                +++ "' not found or could not be described."));
              ("instance_id", instance_id);
              ("region", region)] |}.

(** Lines 41-131: everything in the [try] before aggregation; [inl] is a
    [return], [inr] carries [update_results] on to aggregation. *)
Definition lookup_and_update (instance_id region : json)
  : M World (response + list dict) :=
  invoke (CreateEc2Client region) (ec2_client aws region) ;;;
  d <- describe region instance_id ;;
  match d with
  | inl early => ret (inl early)
  | inr reservations =>
      r <- process_reservations reservations false [] ;;
      match r with
      | inl early => ret (inl early)
      | inr (found_instance_details, update_results) =>
          if negb found_instance_details
          then ret (inl (not_found_response instance_id region))
          else ret (inr update_results)
      end
  end.

(** Lines 133-156. *)
Definition aggregate_updates (instance_id region : json)
    (update_results : list dict) : response :=
  let overall_status_message := "DNS update process completed successfully." in
  let final_status_code := 200%Z in
  let overall_status_message :=
    if any_error update_results
    then "Some DNS updates failed. Check 'updates' for details."
    else overall_status_message in
  let '(overall_status_message, final_status_code) :=
    match update_results with
    | [] => ("No DNS updates were attempted for instance "
             +++ fmt instance_id +++ ".", 200%Z)
    | _ :: _ => (overall_status_message, final_status_code)
    end in
  {| statusCode := final_status_code;
     body := [("status", JStr (if negb (any_error update_results)
                               then "success"
                               else "partial_success_with_errors"));
              ("message", JStr overall_status_message);
              ("instance_id", instance_id);
              ("region", region);
              ("updates", JList (map JObj update_results))] |}.

(** Lines 26-35. *)
Definition missing_field_response (event : dict) : response :=
  {| statusCode := 400;
     body := [("status", JStr "error");
              ("message", JStr "Missing 'instance-id' or 'region' in the EC2 state-change event detail.");
              ("event", JObj event)] |}.

(** Lines 158-170. *)
Definition unexpected_response (event : dict) (instance_id region : json)
    (e : exn) : response :=
  {| statusCode := 500;
     body := [("status", JStr "error");
              ("message", JStr ("An unexpected error occurred during execution: "
                                +++ exn_text e));
              ("instance_id", instance_id);
              ("region", region);
              ("event", JObj event)] |}.

Definition lambda_handler (event : dict) : M World response :=
  let detail := get_or "detail" (JObj []) event in
  instance_id <- method_get detail "instance-id" ;;
  let region := get_or "region" JNull event in
  if negb (truthy instance_id) || negb (truthy region)
  then ret (missing_field_response event)
  else
    try_except
      (r <- lookup_and_update instance_id region ;;
       match r with
       | inl early => ret early
       | inr update_results =>
           ret (aggregate_updates instance_id region update_results)
       end)
      (fun e => ret (unexpected_response event instance_id region e)).

End Handler.

End UpdateDNS.

(** ** A scripted AWS, for running the handlers on concrete inputs *)

Module Scripted.

(** The world is stateless.  [listing] is what the paginator yields,
    [described] what describe-instances answers (a [ClientError] when
    [None]); start and stop fail with a [ClientError] on the ids of
    [refused]; the Route 53 change fails on the names of [dns_refused]. *)
Definition aws (listing : list page) (described : option (list reservation))
    (refused : list string) (dns_refused : list string) : AWS unit :=
  let power (_ : json) (instance_id : string) (w : unit) :=
    if existsb (String.eqb instance_id) refused
    then (Raise (ClientError (Some "IncorrectInstanceState")
                             (Some "not in a state for this request")
                             "An error occurred (IncorrectInstanceState)"), w)
    else (Ok tt, w) in
  {| ec2_client := fun _ w => (Ok tt, w);
     paginate_describe_instances := fun _ w => (Ok listing, w);
     describe_instances := fun _ _ w =>
       match described with
       | Some reservations => (Ok reservations, w)
       | None => (Raise (ClientError (Some "InvalidInstanceID.NotFound")
                                     (Some "The instance ID does not exist")
                                     "An error occurred (InvalidInstanceID.NotFound)"), w)
       end;
     start_instances := power;
     stop_instances := power;
     route53_client := fun w => (Ok tt, w);
     change_resource_record_sets := fun _ name _ _ w =>
       if existsb (String.eqb name) dns_refused
       then (Raise (ClientError (Some "InvalidChangeBatch")
                                (Some "rejected")
                                "An error occurred (InvalidChangeBatch)"), w)
       else (Ok [("ChangeInfo", JObj [("Id", JStr "/change/C1");
                                      ("Status", JStr "PENDING")])], w) |}.

(** An AWS whose EC2 client cannot be constructed. *)
Definition no_client : AWS unit :=
  {| ec2_client := fun _ w => (Raise (PyException "InvalidRegionError"), w);
     paginate_describe_instances := fun _ w => (Ok [], w);
     describe_instances := fun _ _ w => (Ok [], w);
     start_instances := fun _ _ w => (Ok tt, w);
     stop_instances := fun _ _ w => (Ok tt, w);
     route53_client := fun w => (Ok tt, w);
     change_resource_record_sets := fun _ _ _ _ w => (Ok [], w) |}.

Definition start0 : state unit := (tt, []).

Definition render (v : json) : string := "<" +++ type_name v +++ ">".

Definition power_event (region operation instances : string) : dict :=
  [("region", JStr region); ("operation", JStr operation);
   ("instances", JStr instances)].

Definition state_change_event (region instance_id : string) : dict :=
  [("region", JStr region);
   ("detail", JObj [("instance-id", JStr instance_id);
                    ("state", JStr "running")])].

Definition vm (id st : string) (tags : list tag) (ip : option string)
  : instance :=
  {| InstanceId := id; StateName := st; Tags := Some tags;
     PublicIpAddress := ip |}.

(** An account with nothing in it, where every call is accepted. *)
Definition empty_account : AWS unit := aws [] (Some []) [] [].

(** Four instances on two pages. *)
Definition fleet : list page :=
  [ {| Reservations :=
         [ {| Instances := [vm "i-0aaaaaaaaaaaaaaa1" "running" [] None;
                            vm "i-0aaaaaaaaaaaaaaa2" "stopped" [] None] |} ] |};
    {| Reservations :=
         [ {| Instances := [vm "i-0aaaaaaaaaaaaaaa3" "pending" [] None] |};
           {| Instances := [vm "i-0aaaaaaaaaaaaaaa4" "terminated" [] None] |} ] |} ].

Definition fleet_account : AWS unit := aws fleet (Some []) [] [].

Definition web1 : string := "i-0123456789abcdef0".

(** The same valid ID twice, and a malformed one. *)
Definition twice_event : dict :=
  power_event "us-east-1" "stop"
    "i-0123456789abcdef0, i-0123456789abcdef0 ,bad-id,".

Definition bad_only_event : dict := power_event "us-east-1" "stop" "bad-id".
Definition commas_event : dict := power_event "us-east-1" "stop" ",".
Definition all_event : dict := power_event "us-east-1" "stop" "ALL".
Definition start_all_event : dict := power_event "us-east-1" "start" "all".

Definition client_made : state unit :=
  (tt, [CreateEc2Client (JStr "us-east-1")]).

(** Instances for the DNS handler. *)
Definition both_tags : instance :=
  vm web1 "running"
     [ {| Key := "Name"; Value := "host1" |};
       {| Key := "PublicDNS"; Value := "www.example.com" |} ]
     (Some "1.2.3.4").

Definition name_only : instance :=
  vm web1 "running" [ {| Key := "Name"; Value := "host1" |} ] (Some "1.2.3.4").

Definition untagged : instance :=
  vm web1 "running" [ {| Key := "Owner"; Value := "ops" |} ] (Some "1.2.3.4").

(** An account whose describe-instances answers one reservation. *)
Definition describing (insts : list instance) (dns_refused : list string)
  : AWS unit :=
  aws [] (Some [ {| Instances := insts |} ]) [] dns_refused.

Definition web1_event : dict := state_change_event "us-east-1" web1.

Definition web1_detail : dict :=
  [("instance-id", JStr web1); ("state", JStr "running")].

Definition null_detail_event : dict :=
  [("region", JStr "us-east-1"); ("detail", JNull)].

Definition empty_id_event : dict :=
  [("region", JStr "us-east-1"); ("detail", JObj [("instance-id", JStr "")])].

Definition described : state unit :=
  (tt, [CreateEc2Client (JStr "us-east-1");
        DescribeInstances (JStr "us-east-1") (JStr web1)]).

(** The state after one upsert for www.example.com. *)
Definition upserted : state unit :=
  (tt, [CreateEc2Client (JStr "us-east-1");
        DescribeInstances (JStr "us-east-1") (JStr web1);
        CreateRoute53Client;
        ChangeResourceRecordSets "Z00000000X0XXXXXXXXX" "www.example.com"
          "1.2.3.4" 30]).

(** What the helper returns when Route 53 rejects the change. *)
Definition rejected_result : dict :=
  [("dns_name", JStr "www.example.com");
   ("ip_address", JStr "1.2.3.4");
   ("action", JStr "UPSERT");
   ("status", JStr "error");
   ("error_code", JStr "InvalidChangeBatch");
   ("error_message", JStr "rejected")].

End Scripted.

Unset Implicit Arguments.

(** ** Notions used to state the properties *)

(** The last character of a string. *)
Fixpoint last_char (s : string) : option ascii :=
  match s with
  | EmptyString => None
  | String c EmptyString => Some c
  | String _ s' => last_char s'
  end.

(** The tokens of an explicit instance list, trimmed, without the empty
    ones. *)
Definition cleaned_tokens (instances_input : string) : list string :=
  filter (fun t => negb (PyStr.is_empty t))
         (map PyStr.strip (PyStr.split_comma instances_input)).

(** A start or stop call for [instance_id]. *)
Definition is_power_call (instance_id : string) (c : call) : bool :=
  match c with
  | StartInstances _ i => String.eqb instance_id i
  | StopInstances _ i => String.eqb instance_id i
  | _ => false
  end.

(** The start/stop call the handler issues for an id. *)
Definition power_call_of (region operation instance_id : string) : call :=
  if String.eqb operation "start"
  then StartInstances (JStr region) instance_id
  else StopInstances (JStr region) instance_id.

(** An entry [{instance_id, reason}] whose id is [instance_id]. *)
Definition entry_for (instance_id : string) (entry : json) : bool :=
  match entry with
  | JObj o =>
      match get "instance_id" o with
      | Some (JStr i) => String.eqb instance_id i
      | _ => false
      end
  | _ => false
  end.

(** An entry [{instance_id, reason}] with two string fields. *)
Definition is_failed_entry (entry : json) : Prop :=
  exists instance_id reason,
    entry = PowerCycle.failed_entry instance_id reason.

Definition count {A} (p : A -> bool) (l : list A) : nat :=
  length (filter p l).

(** All instances of a listing, in listing order. *)
Definition listed (pages : list page) : list instance :=
  flat_map (fun pg => flat_map Instances (Reservations pg)) pages.

Definition state_in (names : list string) (i : instance) : bool :=
  existsb (String.eqb (StateName i)) names.

(** The tags of an instance; none when it has no 'Tags' key. *)
Definition tags_of (i : instance) : list tag :=
  match Tags i with Some tags => tags | None => [] end.

(** The nested [detail]['instance-id'] of a state-change event, when there
    is one. *)
Definition nested_instance_id (event : dict) : option json :=
  match get "detail" event with
  | Some (JObj detail) => get "instance-id" detail
  | _ => None
  end.

(** A field that is missing, or present with the empty string as value. *)
Definition absent_or_empty (v : option json) : Prop :=
  v = None \/ v = Some (JStr EmptyString).

(** The event's [detail] is a JSON object, or the event has none. *)
Definition detail_is_object (event : dict) : Prop :=
  get "detail" event = None \/ exists o, get "detail" event = Some (JObj o).

(** Is a Route 53 operation. *)
Definition is_dns_call (c : call) : bool :=
  match c with
  | CreateRoute53Client => true
  | ChangeResourceRecordSets _ _ _ _ => true
  | _ => false
  end.

(** ** Notions for the further properties *)

(** A field that holds a string with something besides whitespace. *)
Definition nonblank_string (v : option json) : Prop :=
  exists s, v = Some (JStr s) /\ PyStr.strip s <> EmptyString.

(** A field that holds exactly "start" or "stop". *)
Definition valid_operation (v : option json) : Prop :=
  v = Some (JStr "start") \/ v = Some (JStr "stop").

(** The calls a PowerCycle run may add after the client: the listing, and
    the requested operation on some instance, all in [region]. *)
Definition power_cycle_call (region operation : string) (c : call) : Prop :=
  c = PaginateDescribeInstances (JStr region)
  \/ exists instance_id, c = power_call_of region operation instance_id.

(** The Route 53 calls a DNS-Sync run may make: a client, or one upsert in
    the configured zone with the configured TTL, for a name and an address
    that are not empty. *)
Definition dns_sync_call (c : call) : Prop :=
  c = CreateRoute53Client
  \/ exists name ip,
       name <> EmptyString /\ ip <> EmptyString
       /\ c = ChangeResourceRecordSets UpdateDNS.HOSTED_ZONE_ID name ip
                UpdateDNS.DNS_RECORD_TTL.

(** All instances of a describe-instances answer, in order. *)
Definition instances_of (reservations : list reservation) : list instance :=
  flat_map Instances reservations.

(** The "skipped" record of an instance that has a name. *)
Definition skipped_of (i : instance) : dict :=
  UpdateDNS.skipped_result i
    (match UpdateDNS.resolve_dns_name i with Some d => d | None => EmptyString end)
    (PublicIpAddress i).

(** More scripted worlds: an AWS where one operation always fails. *)
Module Faulty.

Definition base : AWS unit := Scripted.aws [] (Some []) [] [].

(** The paginator raises [e]. *)
Definition listing_broken (e : exn) : AWS unit :=
  {| ec2_client := ec2_client base;
     paginate_describe_instances := fun _ w => (Raise e, w);
     describe_instances := describe_instances base;
     start_instances := start_instances base;
     stop_instances := stop_instances base;
     route53_client := route53_client base;
     change_resource_record_sets := change_resource_record_sets base |}.

(** Every start and stop is refused. *)
Definition refusing : AWS unit :=
  {| ec2_client := ec2_client base;
     paginate_describe_instances := paginate_describe_instances base;
     describe_instances := describe_instances base;
     start_instances := fun _ _ w =>
       (Raise (ClientError (Some "UnauthorizedOperation") (Some "denied")
                           "An error occurred (UnauthorizedOperation)"), w);
     stop_instances := fun _ _ w =>
       (Raise (ClientError (Some "UnauthorizedOperation") (Some "denied")
                           "An error occurred (UnauthorizedOperation)"), w);
     route53_client := route53_client base;
     change_resource_record_sets := change_resource_record_sets base |}.

(** describe-instances raises [e]. *)
Definition describe_broken (e : exn) : AWS unit :=
  {| ec2_client := ec2_client base;
     paginate_describe_instances := paginate_describe_instances base;
     describe_instances := fun _ _ w => (Raise e, w);
     start_instances := start_instances base;
     stop_instances := stop_instances base;
     route53_client := route53_client base;
     change_resource_record_sets := change_resource_record_sets base |}.

(** The Route 53 client cannot be constructed. *)
Definition no_route53 : AWS unit :=
  {| ec2_client := ec2_client base;
     paginate_describe_instances := paginate_describe_instances base;
     describe_instances := describe_instances base;
     start_instances := start_instances base;
     stop_instances := stop_instances base;
     route53_client := fun w => (Raise (PyException "NoCredentialsError"), w);
     change_resource_record_sets := change_resource_record_sets base |}.

Definition not_found : exn :=
  ClientError (Some "InvalidInstanceID.NotFound")
              (Some "The instance ID does not exist")
              "An error occurred (InvalidInstanceID.NotFound)".

Definition throttled : exn :=
  ClientError (Some "RequestLimitExceeded") (Some "Request limit exceeded.")
              "An error occurred (RequestLimitExceeded)".

(** A named instance that is stopped and has no public address. *)
Definition no_ip : instance :=
  Scripted.vm Scripted.web1 "stopped"
    [ {| Key := "Name"; Value := "host1" |} ] None.

Definition padded_event : dict :=
  Scripted.power_event "  us-east-1 " "start" " i-0123456789abcdef0 ".

Definition two_ids_event : dict :=
  Scripted.power_event "us-east-1" "stop"
    "i-0123456789abcdef0,i-0fedcba9876543210,oops".

Definition zero_id_event : dict :=
  [("region", JStr "us-east-1"); ("detail", JObj [("instance-id", JNum 0)])].

End Faulty.

(** ** The handlers on a payload that need not be a JSON object

    Lambda hands the handler whatever JSON value the caller sent.  On an
    object the handlers are [PowerCycle.lambda_handler] and
    [UpdateDNS.lambda_handler]; this is what their first lines do on any
    other value. *)

Module Payload.



Section Handlers.

Variable World : Type.
Variable aws : AWS World.
Variable render : json -> string.


(** lambda_UpdateDNS.py, [lambda_handler(event, context)].  Line 20 calls
    [event.get], which only a dict has; it is outside the [try]. *)
Definition update_dns (payload : json) : M World response :=
  match payload with
  | JObj event => UpdateDNS.lambda_handler aws render event
  | _ =>
      raise (PyException ("'" +++ type_name payload
                          +++ "' object has no attribute 'get'"))
  end.

(** lambda_UpdateDNS.py, lines 120-170: what the handler makes of the
    outcome of the two loops: an early return is returned, no instance
    seen is the 404, results go to aggregation, and an exception is caught
    by the outer [except]. *)
Definition after_loops (event : dict) (instance_id region : json)
    (outcome : result (response + (bool * list dict)) * state World)
  : result response * state World :=
  match outcome with
  | (Ok (inl early), st') => (Ok early, st')
  | (Ok (inr (found_instance_details, update_results)), st') =>
      if negb found_instance_details
      then (Ok (UpdateDNS.not_found_response render instance_id region), st')
      else (Ok (UpdateDNS.aggregate_updates render instance_id region
                  update_results), st')
  | (Raise e, st') =>
      (Ok (UpdateDNS.unexpected_response event instance_id region e), st')
  end.

End Handlers.

End Payload.

(** What the scripted Route 53 answers for www.example.com. *)
Definition upsert_accepted : dict :=
  [("dns_name", JStr "www.example.com");
   ("ip_address", JStr "1.2.3.4");
   ("action", JStr "UPSERT");
   ("change_info", JObj [("Id", JStr "/change/C1");
                         ("Status", JStr "PENDING")]);
   ("status", JStr "success")].

(** ** Facts about strings *)

Module PyStrFacts.

Import PyStr.

Lemma is_empty_true (s : string) : is_empty s = true <-> s = EmptyString.
Proof. destruct s; simpl; split; congruence. Qed.

Lemma is_empty_false (s : string) : is_empty s = false <-> s <> EmptyString.
Proof. destruct s; simpl; split; congruence. Qed.

Lemma last_char_cons (c : ascii) (s : string) :
  s <> EmptyString -> last_char (String c s) = last_char s.
Proof. destruct s; simpl; congruence. Qed.

Lemma rstrip_last (s : string) (c : ascii) :
  last_char (rstrip s) = Some c -> is_space c = false.
Proof.
  induction s as [|a s IH]; simpl; [discriminate|].
  destruct (is_space a) eqn:Ha; simpl.
  - destruct (rstrip s) as [|b r] eqn:Hr; simpl; [discriminate|].
    intros H. apply IH. exact H.
  - destruct (rstrip s) as [|b r] eqn:Hr; simpl.
    + intros H. injection H as <-. exact Ha.
    + intros H. apply IH. exact H.
Qed.

Lemma strip_last (s : string) (c : ascii) :
  last_char (strip s) = Some c -> is_space c = false.
Proof. unfold strip. apply rstrip_last. Qed.

Lemma newline_is_space (c : ascii) :
  Ascii.eqb c "010"%char = true -> is_space c = true.
Proof. intros H. apply Ascii.eqb_eq in H. subst c. reflexivity. Qed.

End PyStrFacts.

(** ** The instance-ID pattern *)

Module PatternFacts.

Import PyStr PyStrFacts PowerCycle.

Lemma hex_run_none (n : nat) : forall s,
  hex_run n s = None ->
  Nat.eqb (String.length s) n && all_lower_hex s = false.
Proof.
  induction n as [|n IH]; intros s; simpl; [discriminate|].
  destruct s as [|c s]; simpl; [reflexivity|].
  destruct (is_lower_hex c); simpl.
  - intros H. apply IH. exact H.
  - intros _. apply andb_false_r.
Qed.

Lemma hex_run_some (n : nat) : forall s t,
  hex_run n s = Some t ->
  Nat.eqb (String.length s) n && all_lower_hex s = is_empty t
  /\ (t <> EmptyString -> last_char s = last_char t).
Proof.
  induction n as [|n IH]; intros s t; simpl.
  - intros H. injection H as <-. split; [|reflexivity].
    destruct s; reflexivity.
  - destruct s as [|c s]; [discriminate|].
    destruct (is_lower_hex c) eqn:Hc; [|discriminate].
    intros H. destruct (IH _ _ H) as [IH1 IH2]. split.
    + simpl. rewrite Hc. simpl. exact IH1.
    + intros Ht. rewrite <- (IH2 Ht). apply last_char_cons.
      intros ->. destruct n; simpl in H; [|discriminate].
      injection H as <-. apply Ht. reflexivity.
Qed.

(** On a string that does not end in a newline, the compiled pattern
    accepts exactly ["i-"] followed by 17 lowercase hex characters. *)
Lemma regex_match_is_instance_id (s : string) :
  (forall c, last_char s = Some c -> Ascii.eqb c "010"%char = false) ->
  instance_id_regex_match s = is_instance_id s.
Proof.
  intros Hlast.
  destruct s as [|c0 s]; [reflexivity|].
  destruct s as [|c1 rest].
  { unfold instance_id_regex_match, is_instance_id.
    destruct c0 as [[] [] [] [] [] [] [] []]; reflexivity. }
  assert (Hbody :
    match hex_run 17 rest with
    | Some EmptyString => true
    | Some (String c EmptyString) => Ascii.eqb c "010"%char
    | _ => false
    end = Nat.eqb (String.length rest) 17 && all_lower_hex rest).
  { destruct (hex_run 17 rest) as [t|] eqn:Hrun.
    - destruct (hex_run_some _ _ _ Hrun) as [H1 H2]. rewrite H1.
      destruct t as [|c t]; [reflexivity|].
      destruct t as [|d t]; [|reflexivity].
      simpl. apply Hlast.
      assert (Hr : rest <> EmptyString).
      { intros ->. simpl in Hrun. discriminate. }
      rewrite last_char_cons by discriminate.
      rewrite (last_char_cons _ _ Hr).
      rewrite H2 by discriminate. reflexivity.
    - symmetry. apply hex_run_none. exact Hrun. }
  unfold instance_id_regex_match, is_instance_id.
  destruct c0 as [[] [] [] [] [] [] [] []]; try reflexivity;
    destruct c1 as [[] [] [] [] [] [] [] []]; try reflexivity.
  exact Hbody.
Qed.

Lemma regex_match_strip (t : string) :
  instance_id_regex_match (strip t) = is_instance_id (strip t).
Proof.
  apply regex_match_is_instance_id. intros c Hc.
  destruct (Ascii.eqb c "010"%char) eqn:E; [|reflexivity].
  apply newline_is_space in E. rewrite (strip_last _ _ Hc) in E. discriminate.
Qed.

End PatternFacts.

(** ** Facts about lists and about the monad *)

Module Aux.

Lemma count_nil {A} (p : A -> bool) : count p [] = 0.
Proof. reflexivity. Qed.

Lemma count_cons {A} (p : A -> bool) (a : A) (l : list A) :
  count p (a :: l) = (if p a then 1 else 0) + count p l.
Proof. unfold count. simpl. destruct (p a); reflexivity. Qed.

Lemma count_app {A} (p : A -> bool) (l1 l2 : list A) :
  count p (l1 ++ l2) = count p l1 + count p l2.
Proof. unfold count. rewrite filter_app, length_app. reflexivity. Qed.

Lemma count_map {A B} (p : B -> bool) (f : A -> B) (l : list A) :
  count p (map f l) = count (fun a => p (f a)) l.
Proof.
  induction l as [|a l IH]; [reflexivity|].
  simpl. rewrite !count_cons, IH. reflexivity.
Qed.

Lemma count_ext {A} (p q : A -> bool) (l : list A) :
  (forall a, In a l -> p a = q a) -> count p l = count q l.
Proof.
  intros H. unfold count. f_equal. apply filter_ext_in. exact H.
Qed.

Lemma count_zero {A} (p : A -> bool) (l : list A) :
  (forall a, In a l -> p a = false) -> count p l = 0.
Proof.
  intros H. rewrite (count_ext p (fun _ => false) l H).
  clear H. unfold count. induction l; simpl; auto.
Qed.

Lemma count_filter {A} (p q : A -> bool) (l : list A) :
  count p (filter q l) = count (fun a => p a && q a) l.
Proof.
  induction l as [|a l IH]; [reflexivity|].
  simpl. destruct (q a) eqn:Hq.
  - rewrite !count_cons, IH, Hq, andb_true_r. reflexivity.
  - rewrite count_cons, IH, Hq, andb_false_r. reflexivity.
Qed.

Section Run.

Variable World : Type.

Lemma invoke_run {A} (c : call) (op : World -> result A * World)
    (st : state World) :
  exists r w', op (fst st) = (r, w')
               /\ invoke c op st = (r, (w', snd st ++ [c])).
Proof.
  unfold invoke. destruct (op (fst st)) as [r w']. eauto.
Qed.

End Run.

End Aux.

(** ** PowerCycle: how the handler runs *)

Module PowerCycleFacts.

Import PyStr PyStrFacts PatternFacts PowerCycle Aux.

(** The folds of instance resolution, as filters. *)

Lemma resolve_fold (tokens : list string) : forall acc,
  fold_left resolve_step tokens acc =
  (fst acc ++ filter instance_id_regex_match
                (filter (fun t => negb (is_empty t)) (map strip tokens)),
   snd acc ++ map (fun t => failed_entry t invalid_format_reason)
                (filter (fun t => negb (instance_id_regex_match t))
                   (filter (fun t => negb (is_empty t)) (map strip tokens)))).
Proof.
  induction tokens as [|t tokens IH]; intros [ids failed]; simpl.
  - rewrite !app_nil_r. reflexivity.
  - rewrite IH. unfold resolve_step.
    destruct (is_empty (strip t)) eqn:He; simpl; [reflexivity|].
    destruct (instance_id_regex_match (strip t)) eqn:Hm; simpl;
      rewrite <- ?app_assoc; reflexivity.
Qed.

Lemma resolve_list_spec (instances_input : string) :
  resolve_list instances_input =
  (filter instance_id_regex_match (cleaned_tokens instances_input),
   map (fun t => failed_entry t invalid_format_reason)
       (filter (fun t => negb (instance_id_regex_match t))
               (cleaned_tokens instances_input))).
Proof. unfold resolve_list. rewrite resolve_fold. reflexivity. Qed.

Lemma cleaned_token_shape (instances_input t : string) :
  In t (cleaned_tokens instances_input) <->
  exists raw, In raw (split_comma instances_input)
              /\ t = strip raw /\ t <> EmptyString.
Proof.
  unfold cleaned_tokens. rewrite filter_In, in_map_iff. split.
  - intros [[raw [<- Hin]] He]. exists raw. split; [exact Hin|].
    split; [reflexivity|]. apply is_empty_false.
    destruct (is_empty (strip raw)); [discriminate|reflexivity].
  - intros [raw [Hin [-> Hne]]]. split; [eauto|].
    apply is_empty_false in Hne. rewrite Hne. reflexivity.
Qed.

Lemma cleaned_token_match (instances_input t : string) :
  In t (cleaned_tokens instances_input) ->
  instance_id_regex_match t = is_instance_id t.
Proof.
  intros H. apply cleaned_token_shape in H. destruct H as [raw [_ [-> _]]].
  apply regex_match_strip.
Qed.

Lemma select_fold (operation : string) (insts : list instance) : forall acc,
  fold_left (select_step operation) insts acc =
  acc ++ map InstanceId
    (filter (fun i =>
       (String.eqb operation "start" && state_in ["stopped"; "stopping"] i)
       || (String.eqb operation "stop" && state_in ["running"; "pending"] i))
       insts).
Proof.
  induction insts as [|i insts IH]; intros acc; simpl.
  - rewrite app_nil_r. reflexivity.
  - rewrite IH. unfold select_step, state_in. simpl.
    rewrite !orb_false_r.
    destruct (String.eqb operation "start"
              && (String.eqb (StateName i) "stopped"
                  || String.eqb (StateName i) "stopping")); simpl.
    + rewrite <- app_assoc. reflexivity.
    + destruct (String.eqb operation "stop"
                && (String.eqb (StateName i) "running"
                    || String.eqb (StateName i) "pending")); simpl.
      * rewrite <- app_assoc. reflexivity.
      * reflexivity.
Qed.

Lemma select_instances_spec (operation : string) (pages : list page) :
  select_instances operation pages =
  map InstanceId
    (filter (fun i =>
       (String.eqb operation "start" && state_in ["stopped"; "stopping"] i)
       || (String.eqb operation "stop" && state_in ["running"; "pending"] i))
       (listed pages)).
Proof.
  unfold select_instances, listed.
  set (keep := fun i : instance => _).
  assert (Hr : forall rs acc,
    fold_left (fun acc rsv =>
                 fold_left (select_step operation) (Instances rsv) acc) rs acc
    = acc ++ map InstanceId (filter keep (flat_map Instances rs))).
  { induction rs as [|r rs IH]; intros acc; simpl.
    - rewrite app_nil_r. reflexivity.
    - rewrite IH, select_fold, filter_app, map_app, <- app_assoc.
      reflexivity. }
  assert (Hp : forall ps acc,
    fold_left (fun acc pg =>
                 fold_left (fun acc rsv =>
                   fold_left (select_step operation) (Instances rsv) acc)
                   (Reservations pg) acc) ps acc
    = acc ++ map InstanceId
        (filter keep
           (flat_map (fun pg => flat_map Instances (Reservations pg)) ps))).
  { induction ps as [|pg ps IH]; intros acc; simpl.
    - rewrite app_nil_r. reflexivity.
    - rewrite IH, Hr, filter_app, map_app, <- app_assoc. reflexivity. }
  apply (Hp pages []).
Qed.

Lemma validate_operation (event : dict) (region operation input : string) :
  validate event = inr (region, operation, input) ->
  operation = "start" \/ operation = "stop".
Proof.
  unfold validate.
  destruct (get "region" event) as [[| | |r| |]|]; try discriminate.
  destruct (is_empty (strip r)); [discriminate|].
  destruct (get "operation" event) as [[| | |op| |]|]; try discriminate.
  destruct (String.eqb op "start") eqn:E1; simpl.
  - destruct (get "instances" event) as [[| | |i| |]|]; try discriminate.
    destruct (is_empty (strip i)); [discriminate|].
    intros H. injection H as _ <- _. left. apply String.eqb_eq. exact E1.
  - destruct (String.eqb op "stop") eqn:E2; [|discriminate].
    destruct (get "instances" event) as [[| | |i| |]|]; try discriminate.
    destruct (is_empty (strip i)); [discriminate|].
    intros H. injection H as _ <- _. right. apply String.eqb_eq. exact E2.
Qed.

Section Run.

Variable World : Type.
Variable aws : AWS World.

Lemma create_client_run (region : string) (st : state World) :
  exists r w',
    create_client aws region st
    = (Ok r, (w', snd st ++ [CreateEc2Client (JStr region)]))
    /\ (r = None \/ exists m, r = Some (message_only 500 m)).
Proof.
  unfold create_client, try_except, bind, ret.
  destruct (invoke_run _ (CreateEc2Client (JStr region))
              (ec2_client aws (JStr region)) st) as [r [w' [_ ->]]].
  destruct r; eauto 6.
Qed.

Lemma resolve_all_listed (region operation : string) (st : state World)
    (pages : list page) (w' : World) :
  paginate_describe_instances aws (JStr region) (fst st) = (Ok pages, w') ->
  resolve_all aws region operation st
  = (Ok match select_instances operation pages with
        | [] => inl (no_target_response operation region)
        | ids => inr (ids, [])
        end,
     (w', snd st ++ [PaginateDescribeInstances (JStr region)])).
Proof.
  intros H. unfold resolve_all, try_except, bind, invoke. rewrite H.
  destruct (select_instances operation pages); reflexivity.
Qed.

(** Instance resolution never raises; an early reply carries a message,
    and the failures it hands on are [{instance_id, reason}] entries. *)
Lemma resolve_run (region operation input : string) (st : state World) :
  exists r st',
    resolve aws region operation input st = (Ok r, st')
    /\ (forall early, r = inl early ->
          exists m, get "message" (body early) = Some (JStr m))
    /\ (forall ids failed, r = inr (ids, failed) ->
          Forall is_failed_entry failed).
Proof.
  unfold resolve. destruct (String.eqb (lower input) "all").
  - unfold resolve_all, try_except, bind.
    destruct (invoke_run _ (PaginateDescribeInstances (JStr region))
                (paginate_describe_instances aws (JStr region)) st)
      as [r [w' [_ ->]]].
    destruct r as [pages|e].
    + destruct (select_instances operation pages) as [|i ids];
        (eexists; eexists; split; [reflexivity|]; split;
         [intros early H;
          first [discriminate | injection H as <-; eexists; reflexivity]
         |intros ids' failed H;
          first [discriminate | injection H as _ <-; constructor]]).
    + destruct e;
        (eexists; eexists; split; [reflexivity|]; split;
         [intros early H; injection H as <-; eexists; reflexivity
         |intros ids' failed H; discriminate]).
  - eexists; eexists; split; [reflexivity|]; split.
    + intros early H. discriminate.
    + intros ids failed H. injection H as H.
      rewrite resolve_list_spec in H. injection H as _ <-.
      apply Forall_forall. intros x Hx. apply in_map_iff in Hx.
      destruct Hx as [t [<- _]]. eexists; eexists; reflexivity.
Qed.

Lemma power_call_run (region operation instance_id : string)
    (st : state World) :
  operation = "start" \/ operation = "stop" ->
  exists r w',
    power_call aws region operation instance_id st
    = (r, (w', snd st ++ [power_call_of region operation instance_id])).
Proof.
  unfold power_call, power_call_of. intros [-> | ->]; simpl.
  - destruct (invoke_run _ (StartInstances (JStr region) instance_id)
                (start_instances aws (JStr region) instance_id) st)
      as [r [w' [_ ->]]]. eauto.
  - destruct (invoke_run _ (StopInstances (JStr region) instance_id)
                (stop_instances aws (JStr region) instance_id) st)
      as [r [w' [_ ->]]]. eauto.
Qed.

(** The execution loop never raises; it issues one call per id, in order,
    and files every id once, under the successes or under the failures. *)
Lemma execute_spec (region operation : string) :
  operation = "start" \/ operation = "stop" ->
  forall ids succ failed st,
  exists done errs w',
    execute aws region operation ids succ failed st
    = (Ok (succ ++ done, failed ++ errs),
       (w', snd st ++ map (power_call_of region operation) ids))
    /\ (forall id, count (String.eqb id) done + count (entry_for id) errs
                   = count (String.eqb id) ids)
    /\ (errs = [] -> done = ids)
    /\ Forall is_failed_entry errs.
Proof.
  intros Hop. induction ids as [|i ids IH]; intros succ failed st.
  - exists [], [], (fst st). simpl. unfold ret.
    rewrite !app_nil_r. destruct st. simpl. repeat split; auto.
  - simpl. unfold bind at 1. unfold try_except, bind at 1.
    destruct (power_call_run region operation i st Hop) as [r [w1 ->]].
    destruct r as [[]|e].
    + unfold ret at 1. simpl.
      destruct (IH (succ ++ [i]) failed
                  (w1, snd st ++ [power_call_of region operation i]))
        as [done [errs [w' [Hrun [Hcount [Hall Hshape]]]]]].
      exists (i :: done), errs, w'. rewrite Hrun. simpl.
      rewrite <- !app_assoc. simpl. repeat split; auto.
      * intros id. rewrite !count_cons, <- Hcount. lia.
      * intros He. rewrite (Hall He). reflexivity.
    + set (entry := match e with
                    | ClientError error_code error_message _ =>
                        failed_entry i ("AWS API Error: [" +++ fmt_opt error_code
                                        +++ "] " +++ fmt_opt error_message)
                    | PyException text =>
                        failed_entry i ("Unexpected error: " +++ text)
                    end).
      assert (Hh : forall s,
        match e with
        | ClientError error_code error_message _ =>
            ret (succ, failed ++
                 [failed_entry i ("AWS API Error: [" +++ fmt_opt error_code
                                  +++ "] " +++ fmt_opt error_message)])
        | PyException text =>
            ret (succ, failed ++ [failed_entry i ("Unexpected error: " +++ text)])
        end s = (Ok (succ, failed ++ [entry]), s) :> (result _ * state World)).
      { intros s. subst entry. destruct e; reflexivity. }
      rewrite Hh. simpl.
      destruct (IH succ (failed ++ [entry])
                  (w1, snd st ++ [power_call_of region operation i]))
        as [done [errs [w' [Hrun [Hcount [Hall Hshape]]]]]].
      exists done, (entry :: errs), w'. rewrite Hrun. simpl.
      rewrite <- !app_assoc. simpl. repeat split; auto.
      * intros id. rewrite !count_cons, <- Hcount.
        assert (entry_for id entry = String.eqb id i) as ->.
        { subst entry. destruct e; reflexivity. }
        lia.
      * discriminate.
      * constructor; [|exact Hshape].
        subst entry. destruct e; eexists; eexists; reflexivity.
Qed.

(** The handler from the point where instance resolution has answered. *)
Lemma handler_after_resolve (event : dict) (region operation input : string)
    (st st1 st2 : state World)
    (resolved : response + (list string * list json)) :
  validate event = inr (region, operation, input) ->
  create_client aws region st = (Ok None, st1) ->
  resolve aws region operation input st1 = (Ok resolved, st2) ->
  lambda_handler aws event st =
  match resolved with
  | inl early => (Ok early, st2)
  | inr ([], []) =>
      (Ok (message_only 400
             "No valid EC2 instance IDs provided for processing."), st2)
  | inr ([], failed_initial) => (Ok (all_invalid_response failed_initial), st2)
  | inr (ids, failed_initial) =>
      match execute aws region operation ids [] failed_initial st2 with
      | (Ok r, st3) => (Ok (aggregate operation region (fst r) (snd r)), st3)
      | (Raise e, st3) => (Raise e, st3)
      end
  end.
Proof.
  intros Hv Hc Hr. unfold lambda_handler. rewrite Hv.
  unfold bind at 1. rewrite Hc. unfold bind at 1. rewrite Hr.
  destruct resolved as [early | [[|i ids] [|f failed]]]; try reflexivity.
Qed.

End Run.

End PowerCycleFacts.

(** ** PowerCycle: the properties of the specification *)

Module PowerCycleSpec.

Import PyStr PyStrFacts PatternFacts PowerCycle Aux PowerCycleFacts.

Lemma aggregate_body (operation region : string) (succ : list string)
    (failed : list json) :
  exists message,
    body (aggregate operation region succ failed) =
    [("message", JStr message);
     ("operation", JStr operation);
     ("successful_instances", JList (map JStr succ));
     ("failed_instances", JList failed);
     ("region", JStr region)].
Proof.
  unfold aggregate. destruct succ, failed; simpl; eexists; reflexivity.
Qed.

Lemma aggregate_status (operation region : string) (succ : list string)
    (failed : list json) :
  statusCode (aggregate operation region succ failed) =
  match succ, failed with
  | [], _ :: _ => 500%Z
  | _, _ => 200%Z
  end.
Proof. unfold aggregate. destruct succ, failed; reflexivity. Qed.

Lemma count_valid_tokens (input id : string) :
  is_instance_id id = true ->
  count (String.eqb id) (filter is_instance_id (cleaned_tokens input))
  = count (String.eqb id) (cleaned_tokens input).
Proof.
  intros Hid. rewrite count_filter. apply count_ext. intros a _.
  destruct (String.eqb id a) eqn:E; [|reflexivity].
  apply String.eqb_eq in E. subst a. rewrite Hid. reflexivity.
Qed.

Lemma valid_tokens (input : string) :
  filter instance_id_regex_match (cleaned_tokens input)
  = filter is_instance_id (cleaned_tokens input).
Proof. apply filter_ext_in. intros a Ha. apply (cleaned_token_match _ _ Ha). Qed.

Lemma invalid_entries_count (input id : string) :
  is_instance_id id = true ->
  count (entry_for id)
    (map (fun t => failed_entry t invalid_format_reason)
       (filter (fun t => negb (instance_id_regex_match t))
          (cleaned_tokens input))) = 0.
Proof.
  intros Hid. rewrite count_map, count_filter. apply count_zero.
  intros a Ha. simpl.
  destruct (String.eqb id a) eqn:E; [|reflexivity].
  apply String.eqb_eq in E. subst a.
  rewrite (cleaned_token_match _ _ Ha), Hid. reflexivity.
Qed.

Lemma count_power_calls (region operation id : string) (ids : list string) :
  count (is_power_call id) (map (power_call_of region operation) ids)
  = count (String.eqb id) ids.
Proof.
  rewrite count_map. apply count_ext. intros a _.
  unfold power_call_of. destruct (String.eqb operation "start"); reflexivity.
Qed.

Section Claims.

Variable World : Type.
Variable aws : AWS World.

Lemma client_state (region : string) (st st1 : state World)
    (r : option response) :
  create_client aws region st = (Ok r, st1) ->
  snd st1 = snd st ++ [CreateEc2Client (JStr region)].
Proof.
  intros H. destruct (create_client_run _ aws region st) as [r' [w' [E _]]].
  rewrite E in H. injection H as _ <-. reflexivity.
Qed.

Lemma resolve_explicit (region operation input : string) (st : state World) :
  lower input <> "all" ->
  resolve aws region operation input st
  = (Ok (inr (resolve_list input)), st).
Proof.
  intros H. unfold resolve.
  destruct (String.eqb (lower input) "all") eqn:E; [|reflexivity].
  apply String.eqb_eq in E. contradiction.
Qed.

(** C9.  The explicit instance list is not deduplicated.  For a request
    that passes validation with an explicit list, once the client exists,
    the handler issues exactly one start/stop call per valid token, in
    token order; so a valid ID that occurs [k] times among the trimmed
    tokens is called [k] times, and when [k > 0] the response files it [k]
    times across [successful_instances] and [failed_instances]. *)
Theorem explicit_list_not_deduplicated
    (event : dict) (region operation input id : string)
    (st st1 : state World) :
  validate event = inr (region, operation, input) ->
  lower input <> "all" ->
  create_client aws region st = (Ok None, st1) ->
  is_instance_id id = true ->
  exists resp w' calls,
    lambda_handler aws event st
    = (Ok resp, (w', snd st ++ CreateEc2Client (JStr region) :: calls))
    /\ calls = map (power_call_of region operation)
                   (filter is_instance_id (cleaned_tokens input))
    /\ count (is_power_call id) calls
       = count (String.eqb id) (cleaned_tokens input)
    /\ (0 < count (String.eqb id) (cleaned_tokens input) ->
        exists succ failed,
          get "successful_instances" (body resp) = Some (JList (map JStr succ))
          /\ get "failed_instances" (body resp) = Some (JList failed)
          /\ count (String.eqb id) succ + count (entry_for id) failed
             = count (String.eqb id) (cleaned_tokens input)).
Proof.
  intros Hv Hall Hc Hid.
  pose proof (validate_operation _ _ _ _ Hv) as Hop.
  pose proof (client_state _ _ _ _ Hc) as Htr.
  rewrite (handler_after_resolve _ aws _ _ _ _ _ _ _ _ Hv Hc
             (resolve_explicit region operation input st1 Hall)).
  rewrite resolve_list_spec, valid_tokens.
  pose proof (count_valid_tokens input id Hid) as Hk.
  pose proof (invalid_entries_count input id Hid) as Hinv.
  set (failed0 := map _ _) in *.
  destruct (filter is_instance_id (cleaned_tokens input)) as [|i ids] eqn:Hids.
  - assert (Hz : count (String.eqb id) (cleaned_tokens input) = 0)
      by (rewrite <- Hk; reflexivity).
    destruct st1 as [w1 tr1]. simpl in Htr. subst tr1.
    destruct failed0 as [|f failed0'];
      (eexists; exists w1, []; simpl;
       split; [reflexivity|]; split; [reflexivity|];
       split; [symmetry; exact Hz|]; rewrite Hz; intros Hlt; inversion Hlt).
  - destruct (execute_spec _ aws region operation Hop (i :: ids) [] failed0 st1)
      as [done [errs [w' [Hrun [Hcount [_ _]]]]]].
    assert (Hshape :
      match execute aws region operation (i :: ids) [] failed0 st1 with
      | (Ok r, st3) => (Ok (aggregate operation region (fst r) (snd r)), st3)
      | (Raise e, st3) => (Raise e, st3)
      end = (Ok (aggregate operation region done (failed0 ++ errs)),
             (w', snd st ++ CreateEc2Client (JStr region)
                    :: map (power_call_of region operation) (i :: ids)))).
    { rewrite Hrun, Htr, <- app_assoc. reflexivity. }
    exists (aggregate operation region done (failed0 ++ errs)), w',
           (map (power_call_of region operation) (i :: ids)).
    split.
    + destruct failed0; exact Hshape.
    + split; [reflexivity|]. split.
      * rewrite count_power_calls. exact Hk.
      * intros _. exists done, (failed0 ++ errs).
        destruct (aggregate_body operation region done (failed0 ++ errs))
          as [m ->].
        split; [reflexivity|]. split; [reflexivity|].
        rewrite count_app, Hinv, Hcount. exact Hk.
Qed.


(** C5.  With the selector "all" (any letter case, after trimming), once
    the client exists and the listing succeeds, the processing set is
    exactly the listed instances in state stopped/stopping for "start" and
    running/pending for "stop", in listing order; an empty selection is
    answered with status 200 and two empty lists, a non-empty one is what
    the start/stop calls are issued for. *)
Theorem all_selects_by_state
    (event : dict) (region operation input : string)
    (st st1 : state World) (pages : list page) (w2 : World) :
  validate event = inr (region, operation, input) ->
  lower input = "all" ->
  create_client aws region st = (Ok None, st1) ->
  paginate_describe_instances aws (JStr region) (fst st1) = (Ok pages, w2) ->
  let selected := select_instances operation pages in
  let listing := snd st ++ [CreateEc2Client (JStr region);
                            PaginateDescribeInstances (JStr region)] in
  (operation = "start" ->
     selected = map InstanceId
                  (filter (state_in ["stopped"; "stopping"]) (listed pages)))
  /\ (operation = "stop" ->
     selected = map InstanceId
                  (filter (state_in ["running"; "pending"]) (listed pages)))
  /\ (selected = [] ->
      exists resp,
        lambda_handler aws event st = (Ok resp, (w2, listing))
        /\ statusCode resp = 200%Z
        /\ get "successful_instances" (body resp) = Some (JList [])
        /\ get "failed_instances" (body resp) = Some (JList []))
  /\ (selected <> [] ->
      exists resp w',
        lambda_handler aws event st
        = (Ok resp,
           (w', listing ++ map (power_call_of region operation) selected))).
Proof.
  intros Hv Hall Hc Hp selected listing.
  pose proof (validate_operation _ _ _ _ Hv) as Hop.
  pose proof (client_state _ _ _ _ Hc) as Htr.
  assert (Hres : resolve aws region operation input st1
                 = (Ok match selected with
                       | [] => inl (no_target_response operation region)
                       | i :: ids => inr (i :: ids, [])
                       end, (w2, listing))).
  { unfold resolve. rewrite Hall. simpl.
    rewrite (resolve_all_listed _ aws region operation st1 pages w2 Hp),
      Htr, <- app_assoc.
    reflexivity. }
  pose proof (handler_after_resolve _ aws _ _ _ _ _ _ _ _ Hv Hc Hres) as Hrun.
  split; [|split; [|split]].
  - intros ->. subst selected. rewrite select_instances_spec.
    f_equal. apply filter_ext. intros i. simpl. apply orb_false_r.
  - intros ->. subst selected. rewrite select_instances_spec. reflexivity.
  - intros Hs. rewrite Hs in Hrun. eexists. split; [exact Hrun|].
    repeat split.
  - intros Hs. destruct selected as [|i ids]; [contradiction|].
    destruct (execute_spec _ aws region operation Hop (i :: ids) [] []
                (w2, listing)) as [done [errs [w' [He _]]]].
    rewrite He in Hrun. eexists; eexists. exact Hrun.
Qed.

(** C1, amended.  For a request that passes field validation, once the
    client exists: an explicit instance list that leaves nothing to call
    is answered with 400 ("no valid instance IDs" when no format failure
    was recorded, the list of invalid IDs otherwise); and whenever the
    execution loop is reached it returns, and the status is 500 when the
    successful list is empty (the failure list is then non-empty), 200
    when both lists are non-empty, and 200 when every call succeeded. *)
Theorem status_decision_table
    (event : dict) (region operation input : string)
    (st st1 : state World) :
  validate event = inr (region, operation, input) ->
  create_client aws region st = (Ok None, st1) ->
  (lower input <> "all" -> fst (resolve_list input) = [] ->
   exists resp,
     lambda_handler aws event st = (Ok resp, st1)
     /\ statusCode resp = 400%Z
     /\ (snd (resolve_list input) = [] ->
         body resp = [("message",
           JStr "No valid EC2 instance IDs provided for processing.")])
     /\ (snd (resolve_list input) <> [] ->
         get "invalid_instances" (body resp)
         = Some (JList (snd (resolve_list input)))))
  /\ (forall ids failed0 st2,
        resolve aws region operation input st1
        = (Ok (inr (ids, failed0)), st2) ->
        ids <> [] ->
        exists succ failed st3,
          execute aws region operation ids [] failed0 st2
          = (Ok (succ, failed), st3)
          /\ lambda_handler aws event st
             = (Ok (aggregate operation region succ failed), st3)
          /\ (succ = [] -> failed <> [])
          /\ (succ = [] -> failed <> [] ->
              statusCode (aggregate operation region succ failed) = 500%Z)
          /\ (succ <> [] -> failed <> [] ->
              statusCode (aggregate operation region succ failed) = 200%Z)
          /\ (succ = ids ->
              statusCode (aggregate operation region succ failed) = 200%Z)).
Proof.
  intros Hv Hc.
  pose proof (validate_operation _ _ _ _ Hv) as Hop.
  split.
  - intros Hall Hnone.
    rewrite (handler_after_resolve _ aws _ _ _ _ _ _ _ _ Hv Hc
               (resolve_explicit region operation input st1 Hall)).
    destruct (resolve_list input) as [ids failed0]. simpl in *. subst ids.
    destruct failed0 as [|f failed0]; eexists; (split; [reflexivity|]);
      (split; [reflexivity|]); split; intros H; try reflexivity;
      try discriminate; contradiction.
  - intros ids failed0 st2 Hr Hne.
    pose proof (handler_after_resolve _ aws _ _ _ _ _ _ _ _ Hv Hc Hr) as Hrun.
    destruct (execute_spec _ aws region operation Hop ids [] failed0 st2)
      as [done [errs [w' [He [_ [Hall _]]]]]].
    simpl in He.
    exists done, (failed0 ++ errs), (w', snd st2
                    ++ map (power_call_of region operation) ids).
    split; [exact He|]. split.
    { destruct ids as [|i ids]; [contradiction|].
      rewrite He in Hrun. destruct failed0; exact Hrun. }
    rewrite aggregate_status.
    assert (Hnn : done = [] -> failed0 ++ errs <> []).
    { intros Hd Hf. apply app_eq_nil in Hf. destruct Hf as [_ Herr].
      apply Hne. rewrite <- (Hall Herr). exact Hd. }
    repeat split.
    + exact Hnn.
    + intros -> Hf. destruct (failed0 ++ errs); [contradiction|reflexivity].
    + intros Hs Hf. destruct done; [contradiction|]. destruct (failed0 ++ errs);
        reflexivity.
    + intros ->. destruct ids; [contradiction|]. destruct (failed0 ++ errs);
        reflexivity.
Qed.

(** C4, amended.  In an explicit instance list, a token that is empty
    after trimming leaves both lists of the resolution loop as they were.
    A token that is not empty after trimming and is not ["i-"] followed by
    17 lowercase hex characters gets no start/stop call, and is reported
    with the invalid-format reason: in [failed_instances] when some token
    is a valid ID, and in [invalid_instances] of a 400 response, which has
    no [failed_instances], when none is. *)
Theorem invalid_tokens_rejected
    (event : dict) (region operation input raw : string)
    (st st1 : state World) :
  validate event = inr (region, operation, input) ->
  lower input <> "all" ->
  create_client aws region st = (Ok None, st1) ->
  In raw (split_comma input) ->
  (strip raw = EmptyString -> forall acc, resolve_step acc raw = acc)
  /\ (strip raw <> EmptyString -> is_instance_id (strip raw) = false ->
      exists resp w' calls,
        lambda_handler aws event st
        = (Ok resp, (w', snd st ++ CreateEc2Client (JStr region) :: calls))
        /\ count (is_power_call (strip raw)) calls = 0
        /\ ((exists t, In t (cleaned_tokens input) /\ is_instance_id t = true) ->
            exists failed,
              get "failed_instances" (body resp) = Some (JList failed)
              /\ In (failed_entry (strip raw) invalid_format_reason) failed)
        /\ ((forall t, In t (cleaned_tokens input) -> is_instance_id t = false) ->
            statusCode resp = 400%Z
            /\ get "failed_instances" (body resp) = None
            /\ exists invalid,
                 get "invalid_instances" (body resp) = Some (JList invalid)
                 /\ In (failed_entry (strip raw) invalid_format_reason) invalid)).
Proof.
  intros Hv Hall Hc Hin. split.
  { intros He acc. unfold resolve_step. rewrite He. reflexivity. }
  intros Hne Hbad.
  pose proof (validate_operation _ _ _ _ Hv) as Hop.
  pose proof (client_state _ _ _ _ Hc) as Htr.
  rewrite (handler_after_resolve _ aws _ _ _ _ _ _ _ _ Hv Hc
             (resolve_explicit region operation input st1 Hall)).
  rewrite resolve_list_spec, valid_tokens.
  assert (Hclean : In (strip raw) (cleaned_tokens input)).
  { apply cleaned_token_shape. exists raw. auto. }
  assert (Hentry :
    In (failed_entry (strip raw) invalid_format_reason)
       (map (fun t => failed_entry t invalid_format_reason)
          (filter (fun t => negb (instance_id_regex_match t))
             (cleaned_tokens input)))).
  { apply in_map_iff. exists (strip raw). split; [reflexivity|].
    apply filter_In. split; [exact Hclean|].
    rewrite (cleaned_token_match _ _ Hclean), Hbad. reflexivity. }
  set (failed0 := map _ _) in *.
  destruct (filter is_instance_id (cleaned_tokens input)) as [|i ids] eqn:Hids.
  - destruct st1 as [w1 tr1]. simpl in Htr. subst tr1.
    destruct failed0 as [|f failed0']; [destruct Hentry|].
    eexists; exists w1, []. split; [reflexivity|].
    split; [reflexivity|]. split.
    + intros [t [Ht Hval]].
      assert (Hf : In t (filter is_instance_id (cleaned_tokens input)))
        by (apply filter_In; auto).
      rewrite Hids in Hf. destruct Hf.
    + intros _. split; [reflexivity|]. split; [reflexivity|].
      eexists. split; [reflexivity|exact Hentry].
  - destruct (execute_spec _ aws region operation Hop (i :: ids) [] failed0 st1)
      as [done [errs [w' [Hrun _]]]].
    assert (Hshape :
      match execute aws region operation (i :: ids) [] failed0 st1 with
      | (Ok r, st3) => (Ok (aggregate operation region (fst r) (snd r)), st3)
      | (Raise e, st3) => (Raise e, st3)
      end = (Ok (aggregate operation region done (failed0 ++ errs)),
             (w', snd st ++ CreateEc2Client (JStr region)
                    :: map (power_call_of region operation) (i :: ids)))).
    { rewrite Hrun, Htr, <- app_assoc. reflexivity. }
    exists (aggregate operation region done (failed0 ++ errs)), w',
           (map (power_call_of region operation) (i :: ids)).
    split; [destruct failed0; exact Hshape|]. split.
    + rewrite count_power_calls. apply count_zero. intros a Ha.
      rewrite <- Hids in Ha. apply filter_In in Ha. destruct Ha as [_ Ha].
      destruct (String.eqb (strip raw) a) eqn:E; [|reflexivity].
      apply String.eqb_eq in E. subst a. congruence.
    + split.
      * intros _. exists (failed0 ++ errs).
        destruct (aggregate_body operation region done (failed0 ++ errs))
          as [m ->].
        split; [reflexivity|]. apply in_or_app. left. exact Hentry.
      * intros Hnone. exfalso.
        assert (Hi : In i (filter is_instance_id (cleaned_tokens input)))
          by (rewrite Hids; left; reflexivity).
        apply filter_In in Hi. destruct Hi as [Hi1 Hi2].
        rewrite (Hnone _ Hi1) in Hi2. discriminate.
Qed.

(** C8, amended.  The handler always returns a response, and its body
    always has a [message]; the response it returns once the execution
    loop has run has all five fields: [message], [operation], [region],
    [successful_instances] (a list of IDs) and [failed_instances] (a list
    of [{instance_id, reason}] entries). *)
Theorem response_fields (event : dict) (st : state World) :
  exists resp st',
    lambda_handler aws event st = (Ok resp, st')
    /\ (exists message, get "message" (body resp) = Some (JStr message))
    /\ (forall region operation input st1 ids failed0 st2,
          validate event = inr (region, operation, input) ->
          create_client aws region st = (Ok None, st1) ->
          resolve aws region operation input st1
          = (Ok (inr (ids, failed0)), st2) ->
          ids <> [] ->
          exists message succ failed,
            body resp = [("message", JStr message);
                         ("operation", JStr operation);
                         ("successful_instances", JList (map JStr succ));
                         ("failed_instances", JList failed);
                         ("region", JStr region)]
            /\ Forall is_failed_entry failed).
Proof.
  destruct (validate event) as [early | [[region operation] input]] eqn:Hv.
  { exists early, st. unfold lambda_handler. rewrite Hv.
    split; [reflexivity|]. split.
    - revert Hv. unfold validate.
      repeat match goal with
             | |- context [match ?x with _ => _ end] => destruct x
             end; intros H;
        first [discriminate | injection H as <-; eexists; reflexivity].
    - intros region operation input st1 ids failed0 st2 H. discriminate. }
  pose proof (validate_operation _ _ _ _ Hv) as Hop.
  destruct (create_client_run _ aws region st) as [c [w1 [Hc Hcs]]].
  destruct Hcs as [-> | [m ->]].
  2:{ eexists; eexists. unfold lambda_handler. rewrite Hv.
      unfold bind at 1. rewrite Hc. split; [reflexivity|].
      split; [eexists; reflexivity|].
      intros region' operation' input' st1 ids failed0 st2 H Hc'.
      injection H as <- <- <-. rewrite Hc in Hc'. discriminate. }
  set (st1 := (w1, snd st ++ [CreateEc2Client (JStr region)])) in *.
  destruct (resolve_run _ aws region operation input st1)
    as [r [st2 [Hr [Hearly Hfailed]]]].
  pose proof (handler_after_resolve _ aws _ _ _ _ _ _ _ _ Hv Hc Hr) as Hrun.
  destruct r as [early | [[|i ids] failed0]].
  - exists early, st2. split; [exact Hrun|]. split; [eauto|].
    intros region' operation' input' st1' ids failed0 st2' H1 H2 H3 _.
    injection H1 as <- <- <-.
    rewrite Hc in H2. injection H2 as <-.
    rewrite Hr in H3. discriminate.
  - exists (match failed0 with
            | [] => message_only 400
                      "No valid EC2 instance IDs provided for processing."
            | _ :: _ => all_invalid_response failed0
            end), st2.
    split; [destruct failed0; exact Hrun|].
    split; [destruct failed0; eexists; reflexivity|].
    intros region' operation' input' st1' ids failed0' st2' H1 H2 H3 Hne.
    injection H1 as <- <- <-.
    rewrite Hc in H2. injection H2 as <-.
    rewrite Hr in H3. injection H3 as <- _ _. contradiction.
  - destruct (execute_spec _ aws region operation Hop (i :: ids) [] failed0 st2)
      as [done [errs [w' [He [_ [_ Hshape]]]]]].
    rewrite He in Hrun. simpl in Hrun.
    eexists; eexists. split; [destruct failed0; exact Hrun|].
    destruct (aggregate_body operation region done (failed0 ++ errs))
      as [m Hm].
    split; [rewrite Hm; eexists; reflexivity|].
    intros region' operation' input' st1' ids' failed0' st2' H1 H2 H3 _.
    injection H1 as <- <- <-.
    exists m, done, (failed0 ++ errs). split; [exact Hm|].
    apply Forall_app. split; [|exact Hshape].
    apply (Hfailed (i :: ids) failed0 eq_refl).
Qed.

End Claims.

(** *** The theorems at concrete requests *)

Import Scripted.

Lemma explicit_list_not_deduplicated_witness :
  validate twice_event
  = inr ("us-east-1", "stop",
         "i-0123456789abcdef0, i-0123456789abcdef0 ,bad-id,")
  /\ is_instance_id web1 = true
  /\ exists resp w' calls,
       lambda_handler empty_account twice_event start0
       = (Ok resp, (w', snd start0 ++ CreateEc2Client (JStr "us-east-1") :: calls))
       /\ calls = [StopInstances (JStr "us-east-1") web1;
                   StopInstances (JStr "us-east-1") web1]
       /\ count (is_power_call web1) calls = 2
       /\ (0 < 2 ->
           exists succ failed,
             get "successful_instances" (body resp) = Some (JList (map JStr succ))
             /\ get "failed_instances" (body resp) = Some (JList failed)
             /\ count (String.eqb web1) succ + count (entry_for web1) failed = 2).
Proof.
  split; [reflexivity|]. split; [reflexivity|].
  apply (explicit_list_not_deduplicated unit empty_account twice_event
           "us-east-1" "stop"
           "i-0123456789abcdef0, i-0123456789abcdef0 ,bad-id," web1
           start0 client_made).
  - reflexivity.
  - vm_compute. discriminate.
  - reflexivity.
  - reflexivity.
Defined.

Lemma all_selects_by_state_witness :
  validate all_event = inr ("us-east-1", "stop", "ALL")
  /\ lower "ALL" = "all"
  /\ select_instances "stop" fleet
     = ["i-0aaaaaaaaaaaaaaa1"; "i-0aaaaaaaaaaaaaaa3"]
  /\ exists resp w',
       lambda_handler fleet_account all_event start0
       = (Ok resp,
          (w', [CreateEc2Client (JStr "us-east-1");
                PaginateDescribeInstances (JStr "us-east-1");
                StopInstances (JStr "us-east-1") "i-0aaaaaaaaaaaaaaa1";
                StopInstances (JStr "us-east-1") "i-0aaaaaaaaaaaaaaa3"])).
Proof.
  split; [reflexivity|]. split; [reflexivity|]. split; [reflexivity|].
  apply (all_selects_by_state unit fleet_account all_event
           "us-east-1" "stop" "ALL" start0 client_made fleet tt);
    try reflexivity.
  vm_compute. discriminate.
Defined.

Lemma status_decision_table_witness :
  validate commas_event = inr ("us-east-1", "stop", ",")
  /\ exists resp,
       lambda_handler empty_account commas_event start0 = (Ok resp, client_made)
       /\ statusCode resp = 400%Z
       /\ (snd (resolve_list ",") = [] ->
           body resp = [("message",
             JStr "No valid EC2 instance IDs provided for processing.")])
       /\ (snd (resolve_list ",") <> [] ->
           get "invalid_instances" (body resp)
           = Some (JList (snd (resolve_list ",")))).
Proof.
  split; [reflexivity|].
  apply (status_decision_table unit empty_account commas_event
           "us-east-1" "stop" "," start0 client_made);
    try reflexivity.
  vm_compute. discriminate.
Defined.

Lemma invalid_tokens_rejected_witness :
  In "bad-id" (split_comma "i-0123456789abcdef0, i-0123456789abcdef0 ,bad-id,")
  /\ is_instance_id (strip "bad-id") = false
  /\ exists resp w' calls,
       lambda_handler empty_account twice_event start0
       = (Ok resp, (w', snd start0 ++ CreateEc2Client (JStr "us-east-1") :: calls))
       /\ count (is_power_call (strip "bad-id")) calls = 0
       /\ ((exists t,
              In t (cleaned_tokens
                      "i-0123456789abcdef0, i-0123456789abcdef0 ,bad-id,")
              /\ is_instance_id t = true) ->
           exists failed,
             get "failed_instances" (body resp) = Some (JList failed)
             /\ In (failed_entry (strip "bad-id") invalid_format_reason) failed)
       /\ ((forall t,
              In t (cleaned_tokens
                      "i-0123456789abcdef0, i-0123456789abcdef0 ,bad-id,") ->
              is_instance_id t = false) ->
           statusCode resp = 400%Z
           /\ get "failed_instances" (body resp) = None
           /\ exists invalid,
                get "invalid_instances" (body resp) = Some (JList invalid)
                /\ In (failed_entry (strip "bad-id") invalid_format_reason)
                      invalid).
Proof.
  assert (Hin : In "bad-id"
    (split_comma "i-0123456789abcdef0, i-0123456789abcdef0 ,bad-id,")).
  { vm_compute. right. right. left. reflexivity. }
  split; [exact Hin|]. split; [reflexivity|].
  apply (invalid_tokens_rejected unit empty_account twice_event
           "us-east-1" "stop"
           "i-0123456789abcdef0, i-0123456789abcdef0 ,bad-id," "bad-id"
           start0 client_made).
  - reflexivity.
  - vm_compute. discriminate.
  - reflexivity.
  - exact Hin.
  - vm_compute. discriminate.
  - reflexivity.
Defined.

Lemma response_fields_witness :
  exists resp st',
    lambda_handler empty_account twice_event start0 = (Ok resp, st')
    /\ exists message succ failed,
         body resp = [("message", JStr message);
                      ("operation", JStr "stop");
                      ("successful_instances", JList (map JStr succ));
                      ("failed_instances", JList failed);
                      ("region", JStr "us-east-1")]
         /\ Forall is_failed_entry failed.
Proof.
  destruct (response_fields unit empty_account twice_event start0)
    as [resp [st' [Hrun [_ Hfive]]]].
  exists resp, st'. split; [exact Hrun|].
  apply (Hfive "us-east-1" "stop"
           "i-0123456789abcdef0, i-0123456789abcdef0 ,bad-id,"
           client_made [web1; web1]
           [failed_entry "bad-id" invalid_format_reason] client_made).
  - reflexivity.
  - reflexivity.
  - reflexivity.
  - discriminate.
Defined.

(** *** Where the claims as stated fail *)

(** C1 as stated.  The request passes field validation, the selector
    "all" finds nothing, so zero instances remain to call and no format
    failure was recorded; the status is 200, not 400. *)
Lemma zero_targets_all_is_not_400 :
  validate start_all_event = inr ("us-east-1", "start", "all")
  /\ resolve empty_account "us-east-1" "start" "all" client_made
     = (Ok (inl (no_target_response "start" "us-east-1")),
        (tt, [CreateEc2Client (JStr "us-east-1");
              PaginateDescribeInstances (JStr "us-east-1")]))
  /\ select_instances "start" [] = []
  /\ exists resp st',
       lambda_handler empty_account start_all_event start0 = (Ok resp, st')
       /\ statusCode resp = 200%Z
       /\ statusCode resp <> 400%Z.
Proof.
  split; [reflexivity|]. split; [reflexivity|]. split; [reflexivity|].
  eexists; eexists. split; [reflexivity|]. split; [reflexivity|].
  simpl. discriminate.
Qed.

(** C4 as stated.  The only token is malformed; the response is the 400
    of lines 138-144, whose body has no [failed_instances]: the token is
    listed under [invalid_instances]. *)
Lemma lone_invalid_token_not_in_failed_instances :
  strip "bad-id" <> EmptyString
  /\ is_instance_id (strip "bad-id") = false
  /\ exists resp st',
       lambda_handler empty_account bad_only_event start0 = (Ok resp, st')
       /\ statusCode resp = 400%Z
       /\ get "failed_instances" (body resp) = None
       /\ get "invalid_instances" (body resp)
          = Some (JList [failed_entry "bad-id" invalid_format_reason]).
Proof.
  split; [vm_compute; discriminate|]. split; [reflexivity|].
  eexists; eexists. split; [reflexivity|]. repeat split.
Qed.

(** C8 as stated.  The response to an event without a region has a body
    with a message and nothing else. *)
Lemma validation_response_lacks_fields :
  exists resp st',
    lambda_handler empty_account [] start0 = (Ok resp, st')
    /\ body resp = [("message", JStr "Missing or invalid 'region' in event.")]
    /\ get "operation" (body resp) = None
    /\ get "region" (body resp) = None
    /\ get "successful_instances" (body resp) = None
    /\ get "failed_instances" (body resp) = None.
Proof. eexists; eexists. repeat split. Qed.

End PowerCycleSpec.

(** ** UpdateDNS: how the handler runs *)

Module UpdateDNSFacts.

Import PyStr PyStrFacts UpdateDNS Aux.

(** What the scan of the tags leaves in [dns_name]: nothing when no tag
    has the key, otherwise the value of a tag that has it. *)
Lemma scan_dns_name (tags : list tag) : forall acc,
  (fst (fold_left scan_step tags acc) = fst acc
   /\ forall t, In t tags -> Key t <> "PublicDNS")
  \/ exists v, fst (fold_left scan_step tags acc) = Some v
               /\ In {| Key := "PublicDNS"; Value := v |} tags.
Proof.
  induction tags as [|t tags IH]; intros acc; simpl.
  - left. split; [reflexivity|]. intros t [].
  - destruct (IH (scan_step acc t)) as [[Hfst Hno] | [v [Hfst Hin]]].
    + destruct (String.eqb (Key t) "PublicDNS") eqn:E.
      * right. exists (Value t). split.
        -- rewrite Hfst. unfold scan_step. rewrite E.
           destruct (String.eqb (Key t) "Name"); reflexivity.
        -- left. apply String.eqb_eq in E. destruct t as [k v]. simpl in *.
           subst k. reflexivity.
      * left. split.
        -- rewrite Hfst. unfold scan_step. rewrite E.
           destruct (String.eqb (Key t) "Name"); reflexivity.
        -- intros t' [<- | Ht']; [|apply Hno; exact Ht'].
           apply String.eqb_neq. exact E.
    + right. exists v. split; [exact Hfst|]. right. exact Hin.
Qed.

(** The same for [ec2_name] and the key 'Name'. *)
Lemma scan_ec2_name (tags : list tag) : forall acc,
  (snd (fold_left scan_step tags acc) = snd acc
   /\ forall t, In t tags -> Key t <> "Name")
  \/ exists v, snd (fold_left scan_step tags acc) = Some v
               /\ In {| Key := "Name"; Value := v |} tags.
Proof.
  induction tags as [|t tags IH]; intros acc; simpl.
  - left. split; [reflexivity|]. intros t [].
  - destruct (IH (scan_step acc t)) as [[Hsnd Hno] | [v [Hsnd Hin]]].
    + destruct (String.eqb (Key t) "Name") eqn:E.
      * right. exists (Value t). split.
        -- rewrite Hsnd. unfold scan_step. rewrite E. reflexivity.
        -- left. apply String.eqb_eq in E. destruct t as [k v]. simpl in *.
           subst k. reflexivity.
      * left. split.
        -- rewrite Hsnd. unfold scan_step. rewrite E.
           destruct (String.eqb (Key t) "PublicDNS"); reflexivity.
        -- intros t' [<- | Ht']; [|apply Hno; exact Ht'].
           apply String.eqb_neq. exact E.
    + right. exists v. split; [exact Hsnd|]. right. exact Hin.
Qed.

Lemma key_unique (tags : list tag) (k v v' : string) :
  NoDup (map Key tags) ->
  In {| Key := k; Value := v |} tags ->
  In {| Key := k; Value := v' |} tags ->
  v = v'.
Proof.
  induction tags as [|t tags IH]; simpl; [intros _ []|].
  intros Hnd H1 H2. inversion Hnd as [|x l Hnotin Hnd']. subst.
  destruct H1 as [-> | H1], H2 as [H2 | H2].
  - injection H2 as ->. reflexivity.
  - exfalso. apply Hnotin. apply (in_map Key) in H2. exact H2.
  - exfalso. apply Hnotin. rewrite H2. apply (in_map Key) in H1. exact H1.
  - apply IH; assumption.
Qed.

Lemma scan_tags_of (i : instance) :
  match Tags i with
  | Some tags => scan_tags tags
  | None => (None, None)
  end = scan_tags (tags_of i).
Proof. unfold tags_of. destruct (Tags i); reflexivity. Qed.

Lemma str_truthy_some (v : string) :
  v <> EmptyString -> str_truthy (Some v) = true.
Proof. intros H. simpl. apply is_empty_false in H. rewrite H. reflexivity. Qed.

Section Run.

Variable World : Type.
Variable aws : AWS World.
Variable render : json -> string.

(** The helper never raises, whatever Route 53 does. *)
Lemma do_dns_update_run (zone name ip : string) (ttl : Z) (st : state World) :
  exists r st',
    do_dns_update aws zone name ip ttl st = (Ok r, st')
    /\ (get "status" r = Some (JStr "success")
        \/ get "status" r = Some (JStr "error")).
Proof.
  unfold do_dns_update, try_except, bind at 1.
  destruct (invoke_run _ CreateRoute53Client (route53_client aws) st)
    as [r1 [w1 [_ ->]]].
  destruct r1 as [[]|e].
  - unfold bind at 1.
    destruct (invoke_run _ (ChangeResourceRecordSets zone name ip ttl)
                (change_resource_record_sets aws zone name ip ttl)
                (w1, snd st ++ [CreateRoute53Client])) as [r2 [w2 [_ ->]]].
    destruct r2 as [response|e].
    + unfold bind, method_get.
      destruct (get_or "ChangeInfo" (JObj []) response);
        eexists; eexists; (split; [reflexivity|]); auto.
    + destruct e; eexists; eexists; (split; [reflexivity|]); auto.
  - destruct e; eexists; eexists; (split; [reflexivity|]); auto.
Qed.

(** One iteration of the loop never raises. *)
Lemma process_instance_run (i : instance) (st : state World) :
  exists r st', process_instance aws i st = (Ok r, st').
Proof.
  unfold process_instance.
  destruct (resolve_dns_name i) as [d|]; [|eexists; eexists; reflexivity].
  destruct (PublicIpAddress i) as [ip|]; [|eexists; eexists; reflexivity].
  destruct (negb (is_empty d) && negb (is_empty ip));
    [|eexists; eexists; reflexivity].
  unfold bind.
  destruct (do_dns_update_run HOSTED_ZONE_ID d ip DNS_RECORD_TTL st)
    as [u [st' [-> _]]].
  eexists; eexists; reflexivity.
Qed.

(** When the loops hand results on, every instance they met left one. *)
Lemma process_instances_result (insts : list instance) :
  forall found results st found' results' st',
    process_instances aws insts found results st
    = (Ok (inr (found', results')), st') ->
    (found = true -> results <> []) ->
    (found' = true -> results' <> [])
    /\ (insts = [] -> found' = found /\ results' = results).
Proof.
  induction insts as [|i insts IH];
    intros found results st found' results' st' H Hinv.
  - simpl in H. unfold ret in H. injection H as <- <- _. auto.
  - simpl in H. unfold bind at 1 in H.
    destruct (process_instance_run i st) as [r [st1 E]]. rewrite E in H.
    destruct r as [early|u]; [discriminate|].
    apply IH in H.
    + destruct H as [H _]. split; [exact H|]. intros Hnil. discriminate.
    + intros _ Hnil. apply app_eq_nil in Hnil. destruct Hnil as [_ Hnil].
      discriminate.
Qed.

Lemma process_reservations_result (reservations : list reservation) :
  forall found results st found' results' st',
    process_reservations aws reservations found results st
    = (Ok (inr (found', results')), st') ->
    (found = true -> results <> []) ->
    (found' = true -> results' <> []).
Proof.
  induction reservations as [|rsv reservations IH];
    intros found results st found' results' st' H Hinv.
  - simpl in H. unfold ret in H. injection H as <- <- _. exact Hinv.
  - simpl in H. unfold bind at 1 in H.
    destruct (process_instances aws (Instances rsv) found results st)
      as [[[early | [f1 r1]] | e] st1] eqn:E; try discriminate.
    apply (IH _ _ _ _ _ _ H).
    apply (process_instances_result _ _ _ _ _ _ _ E Hinv).
Qed.

Lemma process_reservations_empty (reservations : list reservation) :
  (forall rsv, In rsv reservations -> Instances rsv = []) ->
  forall found results st,
    process_reservations aws reservations found results st
    = (Ok (inr (found, results)), st).
Proof.
  induction reservations as [|rsv reservations IH]; intros Hall found results st.
  - reflexivity.
  - simpl. unfold bind. rewrite (Hall rsv (or_introl eq_refl)). simpl.
    apply IH. intros r Hr. apply Hall. right. exact Hr.
Qed.

(** The handler once the two fields of the event are in hand. *)
Lemma handler_validated (event detail : dict) (st : state World) :
  get_or "detail" (JObj []) event = JObj detail ->
  lambda_handler aws render event st =
  let instance_id := get_or "instance-id" JNull detail in
  let region := get_or "region" JNull event in
  if negb (truthy instance_id) || negb (truthy region)
  then (Ok (missing_field_response event), st)
  else match lookup_and_update aws render instance_id region st with
       | (Ok (inl early), st') => (Ok early, st')
       | (Ok (inr update_results), st') =>
           (Ok (aggregate_updates render instance_id region update_results), st')
       | (Raise e, st') =>
           (Ok (unexpected_response event instance_id region e), st')
       end.
Proof.
  intros Hd. unfold lambda_handler. rewrite Hd. unfold method_get, bind at 1.
  unfold ret at 1. simpl.
  destruct (negb (truthy (get_or "instance-id" JNull detail))
            || negb (truthy (get_or "region" JNull event))); [reflexivity|].
  unfold try_except, bind.
  destruct (lookup_and_update aws render (get_or "instance-id" JNull detail)
              (get_or "region" JNull event) st) as [[[early|results]|e] st'];
    reflexivity.
Qed.

(** Everything up to the loops, when the client is made and the lookup
    answers. *)
Lemma lookup_described (instance_id region : json) (st : state World)
    (w1 w2 : World) (reservations : list reservation) :
  ec2_client aws region (fst st) = (Ok tt, w1) ->
  describe_instances aws region instance_id w1 = (Ok reservations, w2) ->
  lookup_and_update aws render instance_id region st =
  match process_reservations aws reservations false []
          (w2, snd st ++ [CreateEc2Client region;
                          DescribeInstances region instance_id]) with
  | (Ok (inl early), st') => (Ok (inl early), st')
  | (Ok (inr (found, update_results)), st') =>
      if negb found
      then (Ok (inl (not_found_response render instance_id region)), st')
      else (Ok (inr update_results), st')
  | (Raise e, st') => (Raise e, st')
  end.
Proof.
  intros Hc Hd. unfold lookup_and_update, bind at 1, invoke at 1.
  rewrite Hc. unfold bind at 1, describe, try_except, bind at 1, invoke at 1.
  simpl. rewrite Hd. unfold ret at 1. simpl. unfold bind.
  rewrite <- app_assoc. simpl.
  destruct (process_reservations aws reservations false [] _)
    as [[[early | [found results]] | e] st']; try reflexivity.
  destruct found; reflexivity.
Qed.

End Run.

End UpdateDNSFacts.

(** ** UpdateDNS: the properties of the specification *)

Module UpdateDNSSpec.

Import PyStr PyStrFacts UpdateDNS Aux UpdateDNSFacts.

Lemma status_is_error_iff (r : dict) :
  status_is_error r = true <-> get "status" r = Some (JStr "error").
Proof.
  unfold status_is_error.
  destruct (get "status" r) as [[| | |s| |]|]; split; try discriminate.
  - intros H. apply String.eqb_eq in H. subst s. reflexivity.
  - intros H. injection H as ->. reflexivity.
Qed.

Lemma any_error_iff (update_results : list dict) :
  any_error update_results = true <->
  exists r, In r update_results /\ get "status" r = Some (JStr "error").
Proof.
  unfold any_error. rewrite existsb_exists. split.
  - intros [r [Hin H]]. exists r. split; [exact Hin|].
    apply status_is_error_iff. exact H.
  - intros [r [Hin H]]. exists r. split; [exact Hin|].
    apply status_is_error_iff. exact H.
Qed.

Lemma aggregate_shape (render : json -> string) (instance_id region : json)
    (update_results : list dict) :
  let resp := aggregate_updates render instance_id region update_results in
  statusCode resp = 200%Z
  /\ get "status" (body resp)
     = Some (JStr (if negb (any_error update_results) then "success"
                   else "partial_success_with_errors"))
  /\ get "updates" (body resp) = Some (JList (map JObj update_results))
  /\ (update_results <> [] ->
      get "message" (body resp)
      = Some (JStr (if any_error update_results
                    then "Some DNS updates failed. Check 'updates' for details."
                    else "DNS update process completed successfully."))).
Proof.
  unfold aggregate_updates. destruct update_results as [|u l]; simpl.
  - repeat split. intros H. contradiction.
  - repeat split.
Qed.

Section Claims.

Variable World : Type.
Variable aws : AWS World.
Variable render : json -> string.

Lemma lookup_results_nonempty (instance_id region : json)
    (st st' : state World) (update_results : list dict) :
  lookup_and_update aws render instance_id region st
  = (Ok (inr update_results), st') ->
  update_results <> [].
Proof.
  unfold lookup_and_update, bind at 1.
  destruct (invoke_run _ (CreateEc2Client region) (ec2_client aws region) st)
    as [r1 [w1 [_ ->]]].
  destruct r1 as [[]|e]; [|discriminate].
  unfold bind at 1, describe, try_except, bind at 1.
  destruct (invoke_run _ (DescribeInstances region instance_id)
              (describe_instances aws region instance_id)
              (w1, snd st ++ [CreateEc2Client region])) as [r2 [w2 [_ ->]]].
  destruct r2 as [reservations|e].
  - unfold ret at 1. unfold bind.
    destruct (process_reservations aws reservations false [] _)
      as [[[early | [found results]] | e] st2] eqn:E; try discriminate.
    destruct found; simpl; [|discriminate].
    intros H. injection H as <- _.
    apply (process_reservations_result _ aws _ _ _ _ _ _ _ E); auto.
    discriminate.
  - destruct e; discriminate.
Qed.


(** Where the event's [detail] is a JSON object or is absent, the handler
    keeps what C10 says: when the nested instance-id or the top-level
    region is missing or is the empty string, it returns the same 400
    response, and it neither constructs a client nor issues a call (the
    state is left as it was). *)
Theorem missing_or_empty_field_is_400 (event : dict) (st : state World) :
  detail_is_object event ->
  absent_or_empty (nested_instance_id event)
  \/ absent_or_empty (get "region" event) ->
  lambda_handler aws render event st = (Ok (missing_field_response event), st)
  /\ statusCode (missing_field_response event) = 400%Z.
Proof.
  intros Hd Hmiss. split; [|reflexivity].
  assert (Hdetail : exists detail,
            get_or "detail" (JObj []) event = JObj detail
            /\ nested_instance_id event = get "instance-id" detail).
  { unfold get_or, nested_instance_id.
    destruct Hd as [-> | [o ->]]; eexists; split; reflexivity. }
  destruct Hdetail as [detail [Hdet Hnested]].
  rewrite (handler_validated _ aws render event detail st Hdet). simpl.
  assert (Hfalsy : forall k d, absent_or_empty (get k d) ->
                   truthy (get_or k JNull d) = false).
  { intros k d [H | H]; unfold get_or; rewrite H; reflexivity. }
  destruct Hmiss as [H | H].
  - rewrite Hnested in H. rewrite (Hfalsy _ _ H). reflexivity.
  - rewrite (Hfalsy _ _ H). rewrite orb_true_r. reflexivity.
Qed.

(** C6.  Whenever the handler reaches aggregation (the two fields are
    present, the lookup found the instance and the loops handed their
    results on), the status code is 200, the response lists the recorded
    results, and its status is "partial_success_with_errors" exactly when
    some recorded result has status "error", and "success" otherwise. *)
Theorem aggregation_status (event detail : dict) (st st' : state World)
    (update_results : list dict) :
  get_or "detail" (JObj []) event = JObj detail ->
  truthy (get_or "instance-id" JNull detail) = true ->
  truthy (get_or "region" JNull event) = true ->
  lookup_and_update aws render (get_or "instance-id" JNull detail)
    (get_or "region" JNull event) st = (Ok (inr update_results), st') ->
  exists resp,
    lambda_handler aws render event st = (Ok resp, st')
    /\ statusCode resp = 200%Z
    /\ get "updates" (body resp) = Some (JList (map JObj update_results))
    /\ (get "status" (body resp) = Some (JStr "partial_success_with_errors")
        <-> exists r, In r update_results
                      /\ get "status" r = Some (JStr "error"))
    /\ (get "status" (body resp) = Some (JStr "success")
        <-> ~ exists r, In r update_results
                        /\ get "status" r = Some (JStr "error")).
Proof.
  intros Hdet Hid Hregion Hrun.
  rewrite (handler_validated _ aws render event detail st Hdet). simpl.
  rewrite Hid, Hregion, Hrun. simpl.
  eexists. split; [reflexivity|].
  destruct (aggregate_shape render (get_or "instance-id" JNull detail)
              (get_or "region" JNull event) update_results)
    as [Hcode [Hstatus [Hupd _]]].
  split; [exact Hcode|]. split; [exact Hupd|]. rewrite Hstatus.
  rewrite <- any_error_iff.
  destruct (any_error update_results); simpl; split; split;
    intros H; try reflexivity; try discriminate; try congruence.
Qed.

(** C3, amended.  When the lookup succeeds but returns no instance (no
    reservation, or reservations without instances), no result is
    recorded and the handler returns 404 "not found".  Aggregation is only
    reached with at least one recorded result, so its message is never
    the "no updates attempted" one. *)
Theorem no_instance_is_not_found (event detail : dict) (st : state World) :
  get_or "detail" (JObj []) event = JObj detail ->
  truthy (get_or "instance-id" JNull detail) = true ->
  truthy (get_or "region" JNull event) = true ->
  let instance_id := get_or "instance-id" JNull detail in
  let region := get_or "region" JNull event in
  (forall w1 w2 reservations,
     ec2_client aws region (fst st) = (Ok tt, w1) ->
     describe_instances aws region instance_id w1 = (Ok reservations, w2) ->
     (forall rsv, In rsv reservations -> Instances rsv = []) ->
     lambda_handler aws render event st
     = (Ok (not_found_response render instance_id region),
        (w2, snd st ++ [CreateEc2Client region;
                        DescribeInstances region instance_id]))
     /\ statusCode (not_found_response render instance_id region) = 404%Z)
  /\ (forall update_results st',
        lookup_and_update aws render instance_id region st
        = (Ok (inr update_results), st') ->
        update_results <> []
        /\ exists resp,
             lambda_handler aws render event st = (Ok resp, st')
             /\ get "message" (body resp)
                <> Some (JStr ("No DNS updates were attempted for instance "
                               +++ fmt render instance_id +++ "."))).
Proof.
  intros Hdet Hid Hregion instance_id region.
  pose proof (handler_validated _ aws render event detail st Hdet) as Hrun.
  simpl in Hrun. fold instance_id region in Hrun.
  subst instance_id region. rewrite Hid, Hregion in Hrun. simpl in Hrun.
  split.
  - intros w1 w2 reservations Hc Hd Hempty. split; [|reflexivity].
    rewrite Hrun.
    rewrite (lookup_described _ aws render _ _ st w1 w2 reservations Hc Hd).
    rewrite (process_reservations_empty _ aws reservations Hempty).
    reflexivity.
  - intros update_results st' Hl.
    pose proof (lookup_results_nonempty _ _ _ _ _ Hl) as Hne.
    split; [exact Hne|].
    rewrite Hl in Hrun. eexists. split; [exact Hrun|].
    destruct (aggregate_shape render (get_or "instance-id" JNull detail)
                (get_or "region" JNull event) update_results)
      as [_ [_ [_ Hmsg]]].
    rewrite (Hmsg Hne). simpl.
    destruct (any_error update_results); intros H; discriminate.
Qed.

End Claims.

(** *** The theorems at concrete events *)

Import Scripted.


Lemma missing_or_empty_field_is_400_witness :
  detail_is_object empty_id_event
  /\ absent_or_empty (nested_instance_id empty_id_event)
  /\ lambda_handler empty_account render empty_id_event start0
     = (Ok (missing_field_response empty_id_event), start0).
Proof.
  assert (H1 : detail_is_object empty_id_event).
  { right. eexists. reflexivity. }
  assert (H2 : absent_or_empty (nested_instance_id empty_id_event)).
  { right. reflexivity. }
  split; [exact H1|]. split; [exact H2|].
  apply (missing_or_empty_field_is_400 unit empty_account render
           empty_id_event start0 H1 (or_introl H2)).
Defined.

Lemma aggregation_status_witness :
  lookup_and_update (describing [both_tags] ["www.example.com"]) render
    (JStr web1) (JStr "us-east-1") start0
  = (Ok (inr [rejected_result]), upserted)
  /\ exists resp,
       lambda_handler (describing [both_tags] ["www.example.com"]) render
         web1_event start0 = (Ok resp, upserted)
       /\ statusCode resp = 200%Z
       /\ get "updates" (body resp) = Some (JList (map JObj [rejected_result]))
       /\ (get "status" (body resp) = Some (JStr "partial_success_with_errors")
           <-> exists r, In r [rejected_result]
                         /\ get "status" r = Some (JStr "error"))
       /\ (get "status" (body resp) = Some (JStr "success")
           <-> ~ exists r, In r [rejected_result]
                           /\ get "status" r = Some (JStr "error")).
Proof.
  split; [reflexivity|].
  apply (aggregation_status unit (describing [both_tags] ["www.example.com"])
           render web1_event web1_detail start0 upserted [rejected_result]);
    reflexivity.
Defined.

Lemma no_instance_is_not_found_witness :
  lambda_handler (describing [] []) render web1_event start0
  = (Ok (not_found_response render (JStr web1) (JStr "us-east-1")), described)
  /\ statusCode (not_found_response render (JStr web1) (JStr "us-east-1"))
     = 404%Z.
Proof.
  destruct (no_instance_is_not_found unit (describing [] []) render
              web1_event web1_detail start0 eq_refl eq_refl eq_refl)
    as [Hnone _].
  apply (Hnone tt tt [ {| Instances := [] |} ]).
  - reflexivity.
  - reflexivity.
  - intros rsv [<- | []]. reflexivity.
Defined.

(** *** Where the claims as stated fail *)

(** C3 as stated.  The lookup succeeds with one reservation that holds no
    instance; no update result is produced; the handler answers 404
    "not found", not 200 "no updates attempted". *)
Lemma reservation_without_instances_is_404 :
  describe_instances (describing [] []) (JStr "us-east-1") (JStr web1) tt
  = (Ok [ {| Instances := [] |} ], tt)
  /\ exists resp st',
       lambda_handler (describing [] []) render web1_event start0
       = (Ok resp, st')
       /\ count is_dns_call (snd st') = 0
       /\ statusCode resp = 404%Z
       /\ statusCode resp <> 200%Z
       /\ get "message" (body resp)
          = Some (JStr "Instance with ID 'i-0123456789abcdef0' not found or could not be described.").
Proof.
  split; [reflexivity|].
  exists (not_found_response render (JStr web1) (JStr "us-east-1")), described.
  split; [reflexivity|].
  split; [reflexivity|]. split; [reflexivity|]. split; [|reflexivity].
  simpl. discriminate.
Qed.

(** C10.  A missing nested instance-id is to give status 400 before any
    client or call, as it does when the event has no [detail] at all.
    On the event whose [detail] is null the instance-id is missing just
    the same, yet the handler raises on [detail.get] at line 21, outside
    its [try]: no response is returned, no 400 and not the 500 of the
    catch-all either. *)
Lemma null_detail_raises :
  absent_or_empty (nested_instance_id null_detail_event)
  /\ absent_or_empty (nested_instance_id [("region", JStr "us-east-1")])
  /\ lambda_handler empty_account render [("region", JStr "us-east-1")] start0
     = (Ok (missing_field_response [("region", JStr "us-east-1")]), start0)
  /\ statusCode (missing_field_response [("region", JStr "us-east-1")])
     = 400%Z
  /\ lambda_handler empty_account render null_detail_event start0
     = (Raise (PyException "'NoneType' object has no attribute 'get'"), start0)
  /\ forall resp st',
       lambda_handler empty_account render null_detail_event start0
       <> (Ok resp, st').
Proof.
  split; [left; reflexivity|]. split; [left; reflexivity|].
  split; [reflexivity|]. split; [reflexivity|]. split; [reflexivity|].
  intros resp st' H. vm_compute in H. discriminate.
Qed.

End UpdateDNSSpec.

(** ** The test cases of the specification, run on the scripted AWS *)

Module SpecExamples.

Import Scripted.

(** One valid and one malformed ID: one stop call, one failed entry,
    status 200. *)
Example one_valid_one_invalid :
  PowerCycle.lambda_handler empty_account
    (power_event "us-east-1" "stop" "i-0123456789abcdef0,bad-id") start0
  = (Ok (PowerCycle.aggregate "stop" "us-east-1" [web1]
           [PowerCycle.failed_entry "bad-id" PowerCycle.invalid_format_reason]),
     (tt, [CreateEc2Client (JStr "us-east-1");
           StopInstances (JStr "us-east-1") web1]))
  /\ statusCode (PowerCycle.aggregate "stop" "us-east-1" [web1]
       [PowerCycle.failed_entry "bad-id" PowerCycle.invalid_format_reason])
     = 200%Z.
Proof. split; reflexivity. Qed.

(** [instances] empty after trimming: 400, and not even a client. *)
Example blank_instances :
  PowerCycle.lambda_handler empty_account
    (power_event "us-east-1" "stop" "   ") start0
  = (Ok (PowerCycle.message_only 400
           "Missing or invalid 'instances' in event. Must be 'all' or a comma-separated list of EC2 instance IDs."),
     start0).
Proof. reflexivity. Qed.

(** The client cannot be constructed: 500, whatever the instance list. *)
Example client_failure :
  PowerCycle.lambda_handler no_client bad_only_event start0
  = (Ok (PowerCycle.message_only 500
           "Failed to initialize EC2 client for region us-east-1."),
     client_made).
Proof. reflexivity. Qed.

(** A trailing newline is trimmed before the pattern is tried; the
    compiled pattern alone would accept it. *)
Example newline_before_end :
  PowerCycle.instance_id_regex_match "i-0123456789abcdef0
" = true
  /\ PowerCycle.is_instance_id "i-0123456789abcdef0
" = false
  /\ PowerCycle.resolve_list "i-0123456789abcdef0
" = ([web1], []).
Proof. repeat split. Qed.

(** Only a Name tag and a public IP: the upsert is for the Name. *)
Example name_tag_fallback :
  snd (UpdateDNS.lambda_handler (describing [name_only] []) render
         web1_event start0)
  = (tt, [CreateEc2Client (JStr "us-east-1");
          DescribeInstances (JStr "us-east-1") (JStr web1);
          CreateRoute53Client;
          ChangeResourceRecordSets UpdateDNS.HOSTED_ZONE_ID "host1" "1.2.3.4"
            UpdateDNS.DNS_RECORD_TTL]).
Proof. reflexivity. Qed.

(** Neither tag: 400, no DNS call, the second instance is not looked at. *)
Example no_usable_tag :
  UpdateDNS.lambda_handler (describing [untagged; both_tags] []) render
    web1_event start0
  = (Ok (UpdateDNS.no_dns_name_response untagged), described).
Proof. reflexivity. Qed.

(** The scan keeps the last value of a key that occurs twice; EC2 does
    not produce such tag lists. *)
Example repeated_key_last_wins :
  UpdateDNS.scan_tags [ {| Key := "PublicDNS"; Value := "a.example.com" |};
                        {| Key := "PublicDNS"; Value := "" |};
                        {| Key := "Name"; Value := "host1" |} ]
  = (Some "", Some "host1").
Proof. reflexivity. Qed.

End SpecExamples.

(** ** PowerCycle: further properties of the handler *)

Module PowerCycleMore.

Import PyStr PyStrFacts PatternFacts PowerCycle Aux PowerCycleFacts.


Lemma validate_region_bad (event : dict) :
  ~ nonblank_string (get "region" event) ->
  validate event
  = inl (message_only 400 "Missing or invalid 'region' in event.").
Proof.
  intros Hbad. unfold validate.
  destruct (get "region" event) as [[| | |r| |]|]; try reflexivity.
  destruct (is_empty (strip r)) eqn:E; [reflexivity|].
  exfalso. apply Hbad. exists r. split; [reflexivity|].
  apply is_empty_false. exact E.
Qed.

Lemma validate_operation_bad (event : dict) :
  nonblank_string (get "region" event) ->
  ~ valid_operation (get "operation" event) ->
  validate event
  = inl (message_only 400
      "Missing or invalid 'operation' in event. Must be 'start' or 'stop'.").
Proof.
  intros [r [Hr Hne]] Hbad. unfold validate. rewrite Hr.
  apply is_empty_false in Hne. rewrite Hne.
  destruct (get "operation" event) as [[| | |op| |]|]; try reflexivity.
  destruct (String.eqb op "start") eqn:E1.
  { exfalso. apply Hbad. left. apply String.eqb_eq in E1. subst op.
    reflexivity. }
  destruct (String.eqb op "stop") eqn:E2; [|reflexivity].
  exfalso. apply Hbad. right. apply String.eqb_eq in E2. subst op.
  reflexivity.
Qed.

Lemma validate_instances_bad (event : dict) :
  nonblank_string (get "region" event) ->
  valid_operation (get "operation" event) ->
  ~ nonblank_string (get "instances" event) ->
  validate event
  = inl (message_only 400
      "Missing or invalid 'instances' in event. Must be 'all' or a comma-separated list of EC2 instance IDs.").
Proof.
  intros [r [Hr Hne]] Hop Hbad. unfold validate. rewrite Hr.
  apply is_empty_false in Hne. rewrite Hne.
  destruct Hop as [-> | ->]; simpl;
    (destruct (get "instances" event) as [[| | |i| |]|]; try reflexivity;
     destruct (is_empty (strip i)) eqn:E; [reflexivity|];
     exfalso; apply Hbad; exists i; split; [reflexivity|];
     apply is_empty_false; exact E).
Qed.

Lemma validate_well_formed (event : dict) (r operation i : string) :
  get "region" event = Some (JStr r) -> strip r <> EmptyString ->
  get "operation" event = Some (JStr operation) ->
  operation = "start" \/ operation = "stop" ->
  get "instances" event = Some (JStr i) -> strip i <> EmptyString ->
  validate event = inr (strip r, operation, strip i).
Proof.
  intros Hr Hrne Ho Hop Hi Hine. unfold validate. rewrite Hr, Ho, Hi.
  apply is_empty_false in Hrne, Hine. rewrite Hrne, Hine.
  destruct Hop as [-> | ->]; reflexivity.
Qed.

Lemma is_instance_id_length (s : string) :
  is_instance_id s = true -> String.length s = 19.
Proof.
  destruct s as [|c0 s]; [discriminate|].
  destruct s as [|c1 rest].
  { unfold is_instance_id.
    destruct c0 as [[] [] [] [] [] [] [] []]; discriminate. }
  unfold is_instance_id.
  destruct c0 as [[] [] [] [] [] [] [] []]; try discriminate;
    destruct c1 as [[] [] [] [] [] [] [] []]; try discriminate.
  intros H. apply andb_prop in H. destruct H as [H _].
  apply Nat.eqb_eq in H. simpl. rewrite H. reflexivity.
Qed.

Section Run.

Variable World : Type.
Variable aws : AWS World.

(** Instance resolution with its calls. *)
Lemma resolve_outcome (region operation input : string) (st : state World) :
  exists r w2 calls,
    resolve aws region operation input st = (Ok r, (w2, snd st ++ calls))
    /\ Forall (power_cycle_call region operation) calls
    /\ (forall early, r = inl early ->
          statusCode early = 200%Z \/ statusCode early = 500%Z).
Proof.
  unfold resolve. destruct (String.eqb (lower input) "all").
  - unfold resolve_all, try_except, bind.
    destruct (invoke_run _ (PaginateDescribeInstances (JStr region))
                (paginate_describe_instances aws (JStr region)) st)
      as [r [w' [_ ->]]].
    assert (Hcalls : Forall (power_cycle_call region operation)
                       [PaginateDescribeInstances (JStr region)]).
    { constructor; [left; reflexivity|constructor]. }
    destruct r as [pages|e].
    + destruct (select_instances operation pages) as [|i ids];
        (eexists; exists w', [PaginateDescribeInstances (JStr region)];
         split; [reflexivity|]; split; [exact Hcalls|];
         intros early H;
         first [discriminate | injection H as <-; left; reflexivity]).
    + destruct e;
        (eexists; exists w', [PaginateDescribeInstances (JStr region)];
         split; [reflexivity|]; split; [exact Hcalls|];
         intros early H; injection H as <-; right; reflexivity).
  - exists (inr (resolve_list input)), (fst st), [].
    rewrite app_nil_r. destruct st as [w tr]. simpl.
    split; [reflexivity|]. split; [constructor|].
    intros early H. discriminate.
Qed.

(** Everything a run does once the request is well formed. *)
Lemma handler_run (event : dict) (region operation input : string)
    (st : state World) :
  validate event = inr (region, operation, input) ->
  exists resp w' calls,
    lambda_handler aws event st
    = (Ok resp, (w', snd st ++ CreateEc2Client (JStr region) :: calls))
    /\ Forall (power_cycle_call region operation) calls
    /\ (statusCode resp = 200%Z \/ statusCode resp = 400%Z
        \/ statusCode resp = 500%Z).
Proof.
  intros Hv. pose proof (validate_operation _ _ _ _ Hv) as Hop.
  destruct (create_client_run _ aws region st) as [c [w1 [Hc Hcs]]].
  destruct Hcs as [-> | [m ->]].
  2:{ exists (message_only 500 m), w1, []. unfold lambda_handler.
      rewrite Hv. unfold bind at 1. rewrite Hc.
      split; [reflexivity|]. split; [constructor|]. right. right.
      reflexivity. }
  destruct (resolve_outcome region operation input
              (w1, snd st ++ [CreateEc2Client (JStr region)]))
    as [r [w2 [calls [Hr [Hcalls Hcodes]]]]].
  simpl in Hr. rewrite <- app_assoc in Hr. simpl in Hr.
  pose proof (handler_after_resolve _ aws _ _ _ _ _ _ _ _ Hv Hc Hr) as Hrun.
  destruct r as [early | [[|i ids] failed0]].
  - exists early, w2, calls. split; [exact Hrun|]. split; [exact Hcalls|].
    destruct (Hcodes early eq_refl) as [H | H]; auto.
  - exists (match failed0 with
            | [] => message_only 400
                      "No valid EC2 instance IDs provided for processing."
            | _ :: _ => all_invalid_response failed0
            end), w2, calls.
    split; [destruct failed0; exact Hrun|]. split; [exact Hcalls|].
    right. left. destruct failed0; reflexivity.
  - destruct (execute_spec _ aws region operation Hop (i :: ids) [] failed0
                (w2, snd st ++ CreateEc2Client (JStr region) :: calls))
      as [done [errs [w' [He _]]]].
    rewrite He in Hrun. simpl in Hrun.
    exists (aggregate operation region done (failed0 ++ errs)), w',
           (calls ++ map (power_call_of region operation) (i :: ids)).
    split.
    { destruct failed0; rewrite Hrun; rewrite <- app_assoc; reflexivity. }
    split.
    { apply Forall_app. split; [exact Hcalls|].
      apply Forall_map. apply Forall_forall. intros id _. right.
      exists id. reflexivity. }
    rewrite PowerCycleSpec.aggregate_status.
    destruct done; destruct (failed0 ++ errs); auto.
Qed.

Lemma execute_lengths (region operation : string) (ids : list string) :
  forall succ failed st r st',
    execute aws region operation ids succ failed st = (Ok r, st') ->
    length (fst r) + length (snd r)
    = length succ + length failed + length ids.
Proof.
  induction ids as [|i ids IH]; intros succ failed st r st' H.
  - simpl in H. unfold ret in H. injection H as <- _. simpl. lia.
  - simpl in H. unfold bind at 1, try_except, bind at 1 in H.
    destruct (power_call aws region operation i st) as [[[]|e] st1].
    + unfold ret at 1 in H. simpl in H. apply IH in H. rewrite H.
      rewrite length_app. simpl. lia.
    + destruct e; unfold ret at 1 in H; simpl in H; apply IH in H;
        rewrite H; rewrite length_app; simpl; lia.
Qed.

Lemma execute_all_ok (region operation : string) :
  (forall id st, exists w',
      power_call aws region operation id st
      = (Ok tt, (w', snd st ++ [power_call_of region operation id]))) ->
  forall ids succ failed st,
  exists w',
    execute aws region operation ids succ failed st
    = (Ok (succ ++ ids, failed),
       (w', snd st ++ map (power_call_of region operation) ids)).
Proof.
  intros Hcall. induction ids as [|i ids IH]; intros succ failed st.
  - exists (fst st). simpl. unfold ret. rewrite !app_nil_r.
    destruct st; reflexivity.
  - simpl. unfold bind at 1, try_except, bind at 1.
    destruct (Hcall i st) as [w1 ->]. unfold ret at 1. simpl.
    destruct (IH (succ ++ [i]) failed
                (w1, snd st ++ [power_call_of region operation i]))
      as [w' ->].
    exists w'. simpl. rewrite <- !app_assoc. reflexivity.
Qed.

Lemma execute_all_refused (region operation : string) :
  (forall id st, exists e w',
      power_call aws region operation id st
      = (Raise e, (w', snd st ++ [power_call_of region operation id]))) ->
  forall ids succ failed st,
  exists errs w',
    execute aws region operation ids succ failed st
    = (Ok (succ, failed ++ errs),
       (w', snd st ++ map (power_call_of region operation) ids))
    /\ Forall2 (fun id entry => entry_for id entry = true
                                /\ is_failed_entry entry) ids errs.
Proof.
  intros Hcall. induction ids as [|i ids IH]; intros succ failed st.
  - exists [], (fst st). simpl. unfold ret. rewrite !app_nil_r.
    destruct st; split; [reflexivity|constructor].
  - simpl. unfold bind at 1, try_except, bind at 1.
    destruct (Hcall i st) as [e [w1 ->]].
    set (entry := match e with
                  | ClientError error_code error_message _ =>
                      failed_entry i ("AWS API Error: [" +++ fmt_opt error_code
                                      +++ "] " +++ fmt_opt error_message)
                  | PyException text =>
                      failed_entry i ("Unexpected error: " +++ text)
                  end).
    assert (Hh : forall s,
      match e with
      | ClientError error_code error_message _ =>
          ret (succ, failed ++
               [failed_entry i ("AWS API Error: [" +++ fmt_opt error_code
                                +++ "] " +++ fmt_opt error_message)])
      | PyException text =>
          ret (succ, failed ++ [failed_entry i ("Unexpected error: " +++ text)])
      end s = (Ok (succ, failed ++ [entry]), s) :> (result _ * state World)).
    { intros s. subst entry. destruct e; reflexivity. }
    rewrite Hh. simpl.
    destruct (IH succ (failed ++ [entry])
                (w1, snd st ++ [power_call_of region operation i]))
      as [errs [w' [-> Hall]]].
    exists (entry :: errs), w'. simpl. rewrite <- !app_assoc. simpl.
    split; [reflexivity|]. constructor; [|exact Hall].
    subst entry. destruct e; simpl; rewrite String.eqb_refl;
      (split; [reflexivity|]); eexists; eexists; reflexivity.
Qed.

End Run.

End PowerCycleMore.

Module PowerCycleProps.

Import PyStr PyStrFacts PatternFacts PowerCycle Aux PowerCycleFacts
       PowerCycleMore.

Section Properties.

Variable World : Type.
Variable aws : AWS World.

Lemma power_call_accepted (region operation : string) :
  operation = "start" \/ operation = "stop" ->
  (forall id w, exists w', start_instances aws (JStr region) id w = (Ok tt, w')) ->
  (forall id w, exists w', stop_instances aws (JStr region) id w = (Ok tt, w')) ->
  forall id (st : state World), exists w',
    power_call aws region operation id st
    = (Ok tt, (w', snd st ++ [power_call_of region operation id])).
Proof.
  intros Hop Hstart Hstop id st. unfold power_call, power_call_of, invoke.
  destruct Hop as [-> | ->]; simpl.
  - destruct (Hstart id (fst st)) as [w' ->]. eauto.
  - destruct (Hstop id (fst st)) as [w' ->]. eauto.
Qed.

Lemma power_call_refused (region operation : string) :
  operation = "start" \/ operation = "stop" ->
  (forall id w, exists e w',
      start_instances aws (JStr region) id w = (Raise e, w')) ->
  (forall id w, exists e w',
      stop_instances aws (JStr region) id w = (Raise e, w')) ->
  forall id (st : state World), exists e w',
    power_call aws region operation id st
    = (Raise e, (w', snd st ++ [power_call_of region operation id])).
Proof.
  intros Hop Hstart Hstop id st. unfold power_call, power_call_of, invoke.
  destruct Hop as [-> | ->]; simpl.
  - destruct (Hstart id (fst st)) as [e [w' ->]]. eauto.
  - destruct (Hstop id (fst st)) as [e [w' ->]]. eauto.
Qed.



(** X2.  Field validation fails fast and touches nothing: a region that is
    not a string with a non-blank content gives the 400 about the region;
    with a good region, an operation other than exactly "start" or "stop"
    gives the 400 about the operation; with both good, an instance list
    that is not a non-blank string gives the 400 about the instances.  In
    all three the state is left as it was: no client, no call. *)
Theorem malformed_request_touches_nothing (event : dict) (st : state World) :
  (~ nonblank_string (get "region" event) ->
   lambda_handler aws event st
   = (Ok (message_only 400 "Missing or invalid 'region' in event."), st))
  /\ (nonblank_string (get "region" event) ->
      ~ valid_operation (get "operation" event) ->
      lambda_handler aws event st
      = (Ok (message_only 400
           "Missing or invalid 'operation' in event. Must be 'start' or 'stop'."),
         st))
  /\ (nonblank_string (get "region" event) ->
      valid_operation (get "operation" event) ->
      ~ nonblank_string (get "instances" event) ->
      lambda_handler aws event st
      = (Ok (message_only 400
           "Missing or invalid 'instances' in event. Must be 'all' or a comma-separated list of EC2 instance IDs."),
         st)).
Proof.
  split; [|split].
  - intros H. unfold lambda_handler. rewrite (validate_region_bad _ H).
    reflexivity.
  - intros H1 H2. unfold lambda_handler.
    rewrite (validate_operation_bad _ H1 H2). reflexivity.
  - intros H1 H2 H3. unfold lambda_handler.
    rewrite (validate_instances_bad _ H1 H2 H3). reflexivity.
Qed.

(** X3.  A well-formed request always gets as far as the client: the first
    call the handler adds is the construction of the EC2 client for the
    trimmed region, and every later call is the listing or the requested
    operation (never the other one) in that same region. *)
Theorem well_formed_request_runs (event : dict) (r operation i : string)
    (st : state World) :
  get "region" event = Some (JStr r) -> strip r <> EmptyString ->
  get "operation" event = Some (JStr operation) ->
  operation = "start" \/ operation = "stop" ->
  get "instances" event = Some (JStr i) -> strip i <> EmptyString ->
  exists resp w' calls,
    lambda_handler aws event st
    = (Ok resp, (w', snd st ++ CreateEc2Client (JStr (strip r)) :: calls))
    /\ Forall (power_cycle_call (strip r) operation) calls.
Proof.
  intros Hr Hrne Ho Hop Hi Hine.
  pose proof (validate_well_formed _ _ _ _ Hr Hrne Ho Hop Hi Hine) as Hv.
  destruct (handler_run _ aws _ _ _ _ st Hv)
    as [resp [w' [calls [Hrun [Hcalls _]]]]].
  exists resp, w', calls. split; [exact Hrun|exact Hcalls].
Qed.

(** X4.  When the EC2 client cannot be constructed the handler returns 500
    with the region in the message, and the attempt is the only thing it
    did. *)
Theorem client_failure_is_500 (event : dict) (region operation input : string)
    (st : state World) (e : exn) (w1 : World) :
  validate event = inr (region, operation, input) ->
  ec2_client aws (JStr region) (fst st) = (Raise e, w1) ->
  lambda_handler aws event st
  = (Ok (message_only 500
           ("Failed to initialize EC2 client for region " +++ region +++ ".")),
     (w1, snd st ++ [CreateEc2Client (JStr region)])).
Proof.
  intros Hv Hc. unfold lambda_handler. rewrite Hv.
  unfold bind at 1, create_client, try_except, bind, invoke. rewrite Hc.
  reflexivity.
Qed.

(** X5.  With the selector "all", a listing that fails ends the run with
    500: the message carries the upstream message of a client error, or
    the text of any other exception; nothing is started or stopped. *)
Theorem listing_failure_is_500 (event : dict) (region operation input : string)
    (st : state World) (e : exn) (w1 w2 : World) :
  validate event = inr (region, operation, input) ->
  lower input = "all" ->
  ec2_client aws (JStr region) (fst st) = (Ok tt, w1) ->
  paginate_describe_instances aws (JStr region) w1 = (Raise e, w2) ->
  lambda_handler aws event st
  = (Ok (message_only 500
           match e with
           | ClientError _ error_message _ =>
               "Failed to list all instances in " +++ region +++ ": "
               +++ fmt_opt error_message
           | PyException text =>
               "Unexpected error listing all instances in " +++ region
               +++ ": " +++ text
           end),
     (w2, snd st ++ [CreateEc2Client (JStr region);
                     PaginateDescribeInstances (JStr region)])).
Proof.
  intros Hv Hall Hc Hp. unfold lambda_handler. rewrite Hv.
  unfold bind at 1, create_client, try_except, bind at 1, invoke at 1.
  rewrite Hc. unfold ret at 1. simpl.
  unfold bind at 1, resolve. rewrite Hall. simpl.
  unfold resolve_all, try_except, bind, invoke. simpl. rewrite Hp.
  rewrite <- app_assoc. destruct e; reflexivity.
Qed.

(** X6.  When AWS accepts every start and stop, the run ends with 200,
    [successful_instances] is the resolved list in its order, and
    [failed_instances] holds the format failures and nothing else. *)
Theorem all_calls_accepted (event : dict) (region operation input : string)
    (st st1 st2 : state World) (ids : list string) (failed0 : list json) :
  validate event = inr (region, operation, input) ->
  create_client aws region st = (Ok None, st1) ->
  resolve aws region operation input st1 = (Ok (inr (ids, failed0)), st2) ->
  ids <> [] ->
  (forall id w, exists w', start_instances aws (JStr region) id w = (Ok tt, w')) ->
  (forall id w, exists w', stop_instances aws (JStr region) id w = (Ok tt, w')) ->
  exists w3,
    lambda_handler aws event st
    = (Ok (aggregate operation region ids failed0),
       (w3, snd st2 ++ map (power_call_of region operation) ids))
    /\ statusCode (aggregate operation region ids failed0) = 200%Z.
Proof.
  intros Hv Hc Hr Hne Hstart Hstop.
  pose proof (validate_operation _ _ _ _ Hv) as Hop.
  rewrite (handler_after_resolve _ aws _ _ _ _ _ _ _ _ Hv Hc Hr).
  destruct (execute_all_ok _ aws region operation
              (power_call_accepted region operation Hop Hstart Hstop)
              ids [] failed0 st2) as [w3 He].
  exists w3. destruct ids as [|i ids]; [contradiction|].
  split.
  - destruct failed0; rewrite He; reflexivity.
  - rewrite PowerCycleSpec.aggregate_status. destruct failed0; reflexivity.
Qed.

(** X7.  When AWS refuses every start and stop, the run ends with 500,
    [successful_instances] is empty, and [failed_instances] holds the
    format failures followed by one entry per resolved instance, in
    order; every call was still attempted. *)
Theorem all_calls_refused (event : dict) (region operation input : string)
    (st st1 st2 : state World) (ids : list string) (failed0 : list json) :
  validate event = inr (region, operation, input) ->
  create_client aws region st = (Ok None, st1) ->
  resolve aws region operation input st1 = (Ok (inr (ids, failed0)), st2) ->
  ids <> [] ->
  (forall id w, exists e w',
      start_instances aws (JStr region) id w = (Raise e, w')) ->
  (forall id w, exists e w',
      stop_instances aws (JStr region) id w = (Raise e, w')) ->
  exists errs w3,
    lambda_handler aws event st
    = (Ok (aggregate operation region [] (failed0 ++ errs)),
       (w3, snd st2 ++ map (power_call_of region operation) ids))
    /\ statusCode (aggregate operation region [] (failed0 ++ errs)) = 500%Z
    /\ Forall2 (fun id entry => entry_for id entry = true
                                /\ is_failed_entry entry) ids errs.
Proof.
  intros Hv Hc Hr Hne Hstart Hstop.
  pose proof (validate_operation _ _ _ _ Hv) as Hop.
  rewrite (handler_after_resolve _ aws _ _ _ _ _ _ _ _ Hv Hc Hr).
  destruct (execute_all_refused _ aws region operation
              (power_call_refused region operation Hop Hstart Hstop)
              ids [] failed0 st2) as [errs [w3 [He Hall]]].
  exists errs, w3. destruct ids as [|i ids]; [contradiction|].
  split; [destruct failed0; rewrite He; reflexivity|].
  split; [|exact Hall].
  rewrite PowerCycleSpec.aggregate_status.
  inversion Hall; subst. destruct failed0; reflexivity.
Qed.

(** X8.  With an explicit list that holds at least one valid ID, the
    response accounts for every non-empty token exactly once: the lengths
    of [successful_instances] and [failed_instances] add up to the number
    of tokens that are not empty after trimming. *)
Theorem every_token_reported_once (event : dict)
    (region operation input : string) (st st1 : state World) :
  validate event = inr (region, operation, input) ->
  lower input <> "all" ->
  create_client aws region st = (Ok None, st1) ->
  fst (resolve_list input) <> [] ->
  exists resp st' message succ failed,
    lambda_handler aws event st = (Ok resp, st')
    /\ body resp = [("message", JStr message);
                    ("operation", JStr operation);
                    ("successful_instances", JList (map JStr succ));
                    ("failed_instances", JList failed);
                    ("region", JStr region)]
    /\ length succ + length failed = length (cleaned_tokens input).
Proof.
  intros Hv Hall Hc Hne.
  pose proof (validate_operation _ _ _ _ Hv) as Hop.
  rewrite (handler_after_resolve _ aws _ _ _ _ _ _ _ _ Hv Hc
             (PowerCycleSpec.resolve_explicit _ aws region operation input
                st1 Hall)).
  assert (Hlen : length (fst (resolve_list input))
                 + length (snd (resolve_list input))
                 = length (cleaned_tokens input)).
  { rewrite resolve_list_spec. simpl. rewrite length_map.
    apply filter_length. }
  destruct (resolve_list input) as [ids failed0]. simpl in *.
  destruct ids as [|i ids]; [contradiction|].
  destruct (execute_spec _ aws region operation Hop (i :: ids) [] failed0 st1)
    as [done [errs [w' [He _]]]].
  pose proof (execute_lengths _ aws _ _ _ _ _ _ _ _ He) as Hl.
  simpl in Hl.
  destruct (PowerCycleSpec.aggregate_body operation region done
              (failed0 ++ errs)) as [m Hm].
  exists (aggregate operation region done (failed0 ++ errs)).
  eexists. exists m, done, (failed0 ++ errs).
  split; [destruct failed0; rewrite He; reflexivity|].
  split; [exact Hm|]. simpl in Hlen. lia.
Qed.

(** X9.  Every ID the explicit list resolves to is a trimmed token of the
    input that is exactly ["i-"] followed by 17 lowercase hex characters,
    19 characters in all; this holds although the compiled pattern by
    itself also accepts such an ID followed by a newline, because tokens
    are trimmed first. *)
Theorem resolved_ids_are_well_formed (input : string) :
  Forall (fun id => is_instance_id id = true
                    /\ String.length id = 19
                    /\ exists raw, In raw (split_comma input)
                                   /\ id = strip raw)
         (fst (resolve_list input)).
Proof.
  rewrite resolve_list_spec. simpl. rewrite PowerCycleSpec.valid_tokens.
  apply Forall_forall. intros id Hin. apply filter_In in Hin.
  destruct Hin as [Hin Hid]. split; [exact Hid|].
  split; [apply is_instance_id_length; exact Hid|].
  apply cleaned_token_shape in Hin. destruct Hin as [raw [Hraw [-> _]]].
  exists raw. split; [exact Hraw|reflexivity].
Qed.

End Properties.

Import Scripted Faulty.


Lemma malformed_request_touches_nothing_witness :
  ~ nonblank_string (get "region" (power_event "   " "start" "all"))
  /\ PowerCycle.lambda_handler empty_account
       (power_event "   " "start" "all") start0
     = (Ok (message_only 400 "Missing or invalid 'region' in event."), start0).
Proof.
  assert (H : ~ nonblank_string (get "region" (power_event "   " "start" "all"))).
  { intros [s [Hs Hne]]. injection Hs as <-. apply Hne. reflexivity. }
  split; [exact H|].
  destruct (malformed_request_touches_nothing unit empty_account
              (power_event "   " "start" "all") start0) as [Hregion _].
  apply Hregion. exact H.
Defined.

Lemma well_formed_request_runs_witness :
  exists resp w' calls,
    lambda_handler empty_account padded_event start0
    = (Ok resp, (w', snd start0 ++ CreateEc2Client (JStr "us-east-1") :: calls))
    /\ Forall (power_cycle_call "us-east-1" "start") calls.
Proof.
  apply (well_formed_request_runs unit empty_account padded_event
           "  us-east-1 " "start" " i-0123456789abcdef0 " start0).
  - reflexivity.
  - vm_compute. discriminate.
  - reflexivity.
  - left. reflexivity.
  - reflexivity.
  - vm_compute. discriminate.
Defined.

Lemma client_failure_is_500_witness :
  lambda_handler no_client bad_only_event start0
  = (Ok (message_only 500
           "Failed to initialize EC2 client for region us-east-1."),
     client_made).
Proof.
  apply (client_failure_is_500 unit no_client bad_only_event
           "us-east-1" "stop" "bad-id" start0
           (PyException "InvalidRegionError") tt); reflexivity.
Defined.

Lemma listing_failure_is_500_witness :
  lambda_handler (listing_broken throttled) all_event start0
  = (Ok (message_only 500
           "Failed to list all instances in us-east-1: Request limit exceeded."),
     (tt, [CreateEc2Client (JStr "us-east-1");
           PaginateDescribeInstances (JStr "us-east-1")])).
Proof.
  apply (listing_failure_is_500 unit (listing_broken throttled) all_event
           "us-east-1" "stop" "ALL" start0 throttled tt tt); reflexivity.
Defined.

Lemma all_calls_accepted_witness :
  exists w3,
    lambda_handler empty_account two_ids_event start0
    = (Ok (aggregate "stop" "us-east-1"
             ["i-0123456789abcdef0"; "i-0fedcba9876543210"]
             [failed_entry "oops" invalid_format_reason]),
       (w3, snd client_made
            ++ map (power_call_of "us-east-1" "stop")
                 ["i-0123456789abcdef0"; "i-0fedcba9876543210"]))
    /\ statusCode (aggregate "stop" "us-east-1"
                     ["i-0123456789abcdef0"; "i-0fedcba9876543210"]
                     [failed_entry "oops" invalid_format_reason]) = 200%Z.
Proof.
  apply (all_calls_accepted unit empty_account two_ids_event
           "us-east-1" "stop"
           "i-0123456789abcdef0,i-0fedcba9876543210,oops"
           start0 client_made client_made).
  - reflexivity.
  - reflexivity.
  - reflexivity.
  - discriminate.
  - intros id []. exists tt. reflexivity.
  - intros id []. exists tt. reflexivity.
Defined.

Lemma all_calls_refused_witness :
  exists errs w3,
    lambda_handler refusing two_ids_event start0
    = (Ok (aggregate "stop" "us-east-1" []
             ([failed_entry "oops" invalid_format_reason] ++ errs)),
       (w3, snd client_made
            ++ map (power_call_of "us-east-1" "stop")
                 ["i-0123456789abcdef0"; "i-0fedcba9876543210"]))
    /\ statusCode (aggregate "stop" "us-east-1" []
                     ([failed_entry "oops" invalid_format_reason] ++ errs))
       = 500%Z
    /\ Forall2 (fun id entry => entry_for id entry = true
                                /\ is_failed_entry entry)
         ["i-0123456789abcdef0"; "i-0fedcba9876543210"] errs.
Proof.
  apply (all_calls_refused unit refusing two_ids_event
           "us-east-1" "stop"
           "i-0123456789abcdef0,i-0fedcba9876543210,oops"
           start0 client_made client_made).
  - reflexivity.
  - reflexivity.
  - reflexivity.
  - discriminate.
  - intros id []. eexists; exists tt. reflexivity.
  - intros id []. eexists; exists tt. reflexivity.
Defined.

Lemma every_token_reported_once_witness :
  exists resp st' message succ failed,
    lambda_handler refusing two_ids_event start0 = (Ok resp, st')
    /\ body resp = [("message", JStr message);
                    ("operation", JStr "stop");
                    ("successful_instances", JList (map JStr succ));
                    ("failed_instances", JList failed);
                    ("region", JStr "us-east-1")]
    /\ length succ + length failed = 3.
Proof.
  apply (every_token_reported_once unit refusing two_ids_event
           "us-east-1" "stop"
           "i-0123456789abcdef0,i-0fedcba9876543210,oops"
           start0 client_made).
  - reflexivity.
  - vm_compute. discriminate.
  - reflexivity.
  - vm_compute. discriminate.
Defined.

End PowerCycleProps.

(** ** UpdateDNS: further facts about how the handler runs *)

Module UpdateDNSMore.

Import PyStr PyStrFacts UpdateDNS Aux UpdateDNSFacts.

Lemma resolved_name_nonempty (i : instance) (d : string) :
  resolve_dns_name i = Some d -> is_empty d = false.
Proof.
  unfold resolve_dns_name.
  set (names := match Tags i with
                | Some tags => scan_tags tags
                | None => (None, None)
                end).
  destruct (str_truthy (fst names)) eqn:E1; simpl.
  - intros H. rewrite H in E1. simpl in E1.
    destruct (is_empty d); [discriminate|reflexivity].
  - destruct (str_truthy (snd names)) eqn:E2; [|discriminate].
    intros H. rewrite H in E2. simpl in E2.
    destruct (is_empty d); [discriminate|reflexivity].
Qed.

Lemma skipped_reason (i : instance) (d : string) :
  resolve_dns_name i = Some d ->
  str_truthy (PublicIpAddress i) = false ->
  get "reason" (skipped_of i)
  = Some (JStr ("Skipping instance '" +++ InstanceId i
                +++ "': missing 'PublicIpAddress'."))
  /\ get "status" (skipped_of i) = Some (JStr "skipped").
Proof.
  intros Hd Hip. unfold skipped_of, skipped_result. rewrite Hd, Hip.
  rewrite (resolved_name_nonempty _ _ Hd). simpl. split; reflexivity.
Qed.

Lemma resolve_by_scan (i : instance) :
  resolve_dns_name i =
  if negb (str_truthy (fst (scan_tags (tags_of i))))
  then (if str_truthy (snd (scan_tags (tags_of i)))
        then snd (scan_tags (tags_of i)) else None)
  else fst (scan_tags (tags_of i)).
Proof. unfold resolve_dns_name. rewrite scan_tags_of. reflexivity. Qed.

Lemma public_dns_unusable (i : instance) :
  (forall d, In {| Key := "PublicDNS"; Value := d |} (tags_of i) ->
             d = EmptyString) ->
  str_truthy (fst (scan_tags (tags_of i))) = false.
Proof.
  intros Hall. unfold scan_tags.
  destruct (scan_dns_name (tags_of i) (None, None))
    as [[-> _] | [v [-> Hin]]]; [reflexivity|].
  rewrite (Hall v Hin). reflexivity.
Qed.

Lemma resolve_public_dns (i : instance) (v : string) :
  NoDup (map Key (tags_of i)) ->
  In {| Key := "PublicDNS"; Value := v |} (tags_of i) ->
  v <> EmptyString ->
  resolve_dns_name i = Some v.
Proof.
  intros Hnd Hin Hv. rewrite resolve_by_scan. unfold scan_tags.
  destruct (scan_dns_name (tags_of i) (None, None))
    as [[_ Hno] | [v' [Hfst Hin']]].
  - exfalso. apply (Hno _ Hin). reflexivity.
  - rewrite Hfst. rewrite (key_unique _ _ _ _ Hnd Hin' Hin).
    rewrite (str_truthy_some v Hv). reflexivity.
Qed.

Lemma resolve_name_fallback (i : instance) (v : string) :
  NoDup (map Key (tags_of i)) ->
  (forall d, In {| Key := "PublicDNS"; Value := d |} (tags_of i) ->
             d = EmptyString) ->
  In {| Key := "Name"; Value := v |} (tags_of i) ->
  v <> EmptyString ->
  resolve_dns_name i = Some v.
Proof.
  intros Hnd Hall Hin Hv.
  rewrite resolve_by_scan, (public_dns_unusable i Hall). simpl.
  unfold scan_tags.
  destruct (scan_ec2_name (tags_of i) (None, None))
    as [[_ Hno] | [v' [Hsnd Hin']]].
  - exfalso. apply (Hno _ Hin). reflexivity.
  - rewrite Hsnd. rewrite (key_unique _ _ _ _ Hnd Hin' Hin).
    rewrite (str_truthy_some v Hv). reflexivity.
Qed.

Lemma resolve_no_name (i : instance) :
  (forall d, In {| Key := "PublicDNS"; Value := d |} (tags_of i) ->
             d = EmptyString) ->
  (forall n, In {| Key := "Name"; Value := n |} (tags_of i) ->
             n = EmptyString) ->
  resolve_dns_name i = None.
Proof.
  intros Hall Hname.
  rewrite resolve_by_scan, (public_dns_unusable i Hall). simpl.
  unfold scan_tags.
  destruct (scan_ec2_name (tags_of i) (None, None))
    as [[-> _] | [v [-> Hin]]]; [reflexivity|].
  rewrite (Hname v Hin). reflexivity.
Qed.

Section Run.

Variable World : Type.
Variable aws : AWS World.
Variable render : json -> string.

(** The helper with its calls: the client, then at most the one change. *)
Lemma do_dns_update_calls (zone name ip : string) (ttl : Z)
    (st : state World) :
  exists r w' calls,
    do_dns_update aws zone name ip ttl st
    = (Ok r, (w', snd st ++ CreateRoute53Client :: calls))
    /\ (get "dns_name" r = Some (JStr name)
        /\ get "ip_address" r = Some (JStr ip)
        /\ get "action" r = Some (JStr "UPSERT"))
    /\ (forall w1, route53_client aws (fst st) = (Ok tt, w1) ->
          calls = [ChangeResourceRecordSets zone name ip ttl])
    /\ (forall e w1, route53_client aws (fst st) = (Raise e, w1) ->
          calls = [] /\ get "status" r = Some (JStr "error")).
Proof.
  unfold do_dns_update, try_except, bind at 1, invoke at 1.
  destruct (route53_client aws (fst st)) as [r1 w1] eqn:E1.
  destruct r1 as [[]|e].
  - unfold bind at 1, invoke at 1. simpl.
    destruct (change_resource_record_sets aws zone name ip ttl w1)
      as [r2 w2].
    assert (Htr : (snd st ++ [CreateRoute53Client])
                  ++ [ChangeResourceRecordSets zone name ip ttl]
                  = snd st ++ CreateRoute53Client
                      :: [ChangeResourceRecordSets zone name ip ttl]).
    { rewrite <- app_assoc. reflexivity. }
    rewrite Htr.
    destruct r2 as [response|e].
    + unfold bind, method_get.
      destruct (get_or "ChangeInfo" (JObj []) response);
        (eexists; eexists; eexists; split; [reflexivity|];
         split; [repeat split|]; split;
         [intros w1' H; reflexivity | intros e' w1' H; discriminate]).
    + destruct e;
        (eexists; eexists; eexists; split; [reflexivity|];
         split; [repeat split|]; split;
         [intros w1' H; reflexivity | intros e' w1' H; discriminate]).
  - destruct e;
      (eexists; eexists; exists []; split; [reflexivity|];
       split; [repeat split|]; split;
       [intros w1' H; discriminate
       |intros e' w1' H; split; reflexivity]).
Qed.

(** One iteration with its calls. *)
Lemma process_instance_calls (i : instance) (st : state World) :
  exists r w' calls,
    process_instance aws i st = (Ok r, (w', snd st ++ calls))
    /\ Forall dns_sync_call calls
    /\ (forall early, r = inl early ->
          early = no_dns_name_response i /\ calls = [])
    /\ (resolve_dns_name i <> None ->
        str_truthy (PublicIpAddress i) = false ->
        r = inr (skipped_of i) /\ calls = []).
Proof.
  unfold process_instance.
  assert (Hsame : forall A (a : A) (s : state World),
            (Ok a, s) = (Ok a, (fst s, snd s ++ []))).
  { intros A a [w tr]. simpl. rewrite app_nil_r. reflexivity. }
  destruct (resolve_dns_name i) as [d|] eqn:Hd.
  2:{ exists (inl (no_dns_name_response i)), (fst st), [].
      split; [apply Hsame|]. split; [constructor|]. split.
      - intros early H. injection H as <-. auto.
      - intros H. contradiction. }
  pose proof (resolved_name_nonempty _ _ Hd) as Hdne.
  assert (Hskip : forall ip, PublicIpAddress i = ip ->
            inr (skipped_result i d ip)
            = (inr (skipped_of i) : response + dict)).
  { intros ip Hip. unfold skipped_of. rewrite Hd, Hip. reflexivity. }
  destruct (PublicIpAddress i) as [ip|] eqn:Hip.
  - rewrite Hdne. simpl. destruct (is_empty ip) eqn:Hipe; simpl.
    + exists (inr (skipped_of i)), (fst st), [].
      rewrite (Hskip _ eq_refl).
      split; [apply Hsame|]. split; [constructor|]. split.
      * intros early H. discriminate.
      * intros _ _. auto.
    + unfold bind.
      destruct (do_dns_update_calls HOSTED_ZONE_ID d ip DNS_RECORD_TTL st)
        as [u [w' [calls [-> [_ [Hok Hbad]]]]]].
      exists (inr u), w', (CreateRoute53Client :: calls).
      split; [reflexivity|]. split.
      * constructor; [left; reflexivity|].
        destruct (route53_client aws (fst st)) as [[[]|e] w1] eqn:E.
        -- rewrite (Hok w1 eq_refl). constructor; [|constructor].
           right. exists d, ip. apply is_empty_false in Hdne, Hipe. auto.
        -- destruct (Hbad e w1 eq_refl) as [-> _]. constructor.
      * split; [intros early H; discriminate|].
        intros _ H. discriminate.
  - exists (inr (skipped_of i)), (fst st), [].
    rewrite (Hskip _ eq_refl).
    split; [apply Hsame|]. split; [constructor|]. split.
    + intros early H. discriminate.
    + intros _ _. auto.
Qed.

(** The inner loop with its calls. *)
Lemma process_instances_calls (insts : list instance) :
  forall found results (st : state World),
  exists r w' calls,
    process_instances aws insts found results st
    = (Ok r, (w', snd st ++ calls))
    /\ Forall dns_sync_call calls
    /\ (forall early, r = inl early ->
          exists i, In i insts /\ early = no_dns_name_response i)
    /\ (forall f res, r = inr (f, res) ->
          f = match insts with [] => found | _ :: _ => true end
          /\ exists more, res = results ++ more
                          /\ length more = length insts)
    /\ ((forall i, In i insts ->
           resolve_dns_name i <> None
           /\ str_truthy (PublicIpAddress i) = false) ->
        r = inr (match insts with [] => found | _ :: _ => true end,
                 results ++ map skipped_of insts)
        /\ calls = []).
Proof.
  induction insts as [|i insts IH]; intros found results st.
  - exists (inr (found, results)), (fst st), []. simpl. unfold ret.
    rewrite !app_nil_r. destruct st. simpl.
    split; [reflexivity|]. split; [constructor|]. split.
    + intros early H. discriminate.
    + split.
      * intros f res H. injection H as <- <-. split; [reflexivity|].
        exists []. rewrite app_nil_r. auto.
      * intros _. auto.
  - simpl. unfold bind at 1.
    destruct (process_instance_calls i st)
      as [r [w1 [calls1 [-> [Hc1 [Hearly1 Hskip1]]]]]].
    destruct r as [early|u].
    + exists (inl early), w1, calls1. unfold ret.
      split; [reflexivity|]. split; [exact Hc1|]. split.
      * intros early' H. injection H as <-. exists i.
        split; [left; reflexivity|]. apply (Hearly1 early eq_refl).
      * split; [intros f res H; discriminate|].
        intros Hall. destruct (Hall i (or_introl eq_refl)) as [H1 H2].
        destruct (Hskip1 H1 H2) as [H _]. discriminate.
    + destruct (IH true (results ++ [u]) (w1, snd st ++ calls1))
        as [r [w2 [calls2 [-> [Hc2 [Hearly2 [Hres2 Hskip2]]]]]]].
      exists r, w2, (calls1 ++ calls2). simpl. rewrite <- app_assoc.
      split; [reflexivity|].
      split; [apply Forall_app; split; assumption|]. split.
      * intros early H. destruct (Hearly2 early H) as [j [Hj ->]].
        exists j. split; [right; exact Hj|reflexivity].
      * split.
        -- intros f res H. destruct (Hres2 f res H) as [Hf [more [-> Hl]]].
           split; [destruct insts; exact Hf|].
           exists (u :: more). rewrite <- app_assoc. simpl.
           split; [reflexivity|]. rewrite Hl. reflexivity.
        -- intros Hall. destruct (Hall i (or_introl eq_refl)) as [H1 H2].
           destruct (Hskip1 H1 H2) as [Hu ->]. injection Hu as ->.
           destruct (Hskip2 (fun j Hj => Hall j (or_intror Hj))) as [-> ->].
           rewrite <- app_assoc. simpl.
           split; [destruct insts; reflexivity|reflexivity].
Qed.

(** The outer loop with its calls. *)
Lemma process_reservations_calls (reservations : list reservation) :
  forall found results (st : state World),
  exists r w' calls,
    process_reservations aws reservations found results st
    = (Ok r, (w', snd st ++ calls))
    /\ Forall dns_sync_call calls
    /\ (forall early, r = inl early ->
          exists i, In i (instances_of reservations)
                    /\ early = no_dns_name_response i)
    /\ (forall f res, r = inr (f, res) ->
          f = match instances_of reservations with
              | [] => found
              | _ :: _ => true
              end
          /\ exists more, res = results ++ more
                          /\ length more = length (instances_of reservations))
    /\ ((forall i, In i (instances_of reservations) ->
           resolve_dns_name i <> None
           /\ str_truthy (PublicIpAddress i) = false) ->
        r = inr (match instances_of reservations with
                 | [] => found
                 | _ :: _ => true
                 end,
                 results ++ map skipped_of (instances_of reservations))
        /\ calls = []).
Proof.
  induction reservations as [|rsv reservations IH]; intros found results st.
  - exists (inr (found, results)), (fst st), []. simpl. unfold ret.
    rewrite !app_nil_r. destruct st. simpl.
    split; [reflexivity|]. split; [constructor|]. split.
    + intros early H. discriminate.
    + split.
      * intros f res H. injection H as <- <-. split; [reflexivity|].
        exists []. rewrite app_nil_r. auto.
      * intros _. auto.
  - simpl. unfold bind at 1. unfold instances_of. simpl.
    fold (instances_of reservations).
    destruct (process_instances_calls (Instances rsv) found results st)
      as [r [w1 [calls1 [-> [Hc1 [Hearly1 [Hres1 Hskip1]]]]]]].
    destruct r as [early | [f1 res1]].
    + exists (inl early), w1, calls1. unfold ret.
      split; [reflexivity|]. split; [exact Hc1|]. split.
      * intros early' H. injection H as <-.
        destruct (Hearly1 early eq_refl) as [i [Hi ->]].
        exists i. split; [apply in_or_app; left; exact Hi|reflexivity].
      * split; [intros f res H; discriminate|].
        intros Hall.
        destruct (Hskip1 (fun i Hi => Hall i (in_or_app _ _ _ (or_introl Hi))))
          as [H _]. discriminate.
    + destruct (Hres1 f1 res1 eq_refl) as [Hf1 [more1 [-> Hl1]]].
      destruct (IH f1 (results ++ more1) (w1, snd st ++ calls1))
        as [r [w2 [calls2 [-> [Hc2 [Hearly2 [Hres2 Hskip2]]]]]]].
      exists r, w2, (calls1 ++ calls2). simpl. rewrite <- app_assoc.
      split; [reflexivity|].
      split; [apply Forall_app; split; assumption|]. split.
      * intros early H. destruct (Hearly2 early H) as [j [Hj ->]].
        exists j. split; [apply in_or_app; right; exact Hj|reflexivity].
      * split.
        -- intros f res H. destruct (Hres2 f res H) as [Hf [more [-> Hl]]].
           split.
           ++ rewrite Hf, Hf1.
              destruct (Instances rsv); destruct (instances_of reservations);
                reflexivity.
           ++ exists (more1 ++ more). rewrite <- app_assoc.
              split; [reflexivity|]. rewrite !length_app, Hl1, Hl.
              reflexivity.
        -- intros Hall.
           destruct (Hskip1 (fun i Hi =>
                       Hall i (in_or_app _ _ _ (or_introl Hi)))) as [Hr1 ->].
           injection Hr1 as _ Hm. apply app_inv_head in Hm. subst more1.
           destruct (Hskip2 (fun i Hi =>
                       Hall i (in_or_app _ _ _ (or_intror Hi)))) as [-> ->].
           rewrite map_app, <- app_assoc, Hf1.
           split; [|reflexivity].
           destruct (Instances rsv); destruct (instances_of reservations);
             reflexivity.
Qed.

Lemma process_instances_app (a b : list instance) :
  forall found results (st : state World),
    process_instances aws (a ++ b) found results st
    = match process_instances aws a found results st with
      | (Ok (inr (f, res)), st1) => process_instances aws b f res st1
      | (Ok (inl early), st1) => (Ok (inl early), st1)
      | (Raise e, st1) => (Raise e, st1)
      end.
Proof.
  induction a as [|i a IH]; intros found results st.
  - reflexivity.
  - simpl. unfold bind.
    destruct (process_instance aws i st) as [[[early|u]|e] st1];
      try reflexivity.
    apply IH.
Qed.

(** Everything in the [try] with its calls. *)
Lemma lookup_calls (instance_id region : json) (st : state World) :
  exists r w' calls,
    lookup_and_update aws render instance_id region st
    = (r, (w', snd st ++ CreateEc2Client region :: calls))
    /\ Forall (fun c => c = DescribeInstances region instance_id
                        \/ dns_sync_call c) calls
    /\ (forall early, r = Ok (inl early) ->
          (statusCode early = 400%Z \/ statusCode early = 404%Z
           \/ statusCode early = 500%Z)
          /\ get "status" (body early) = Some (JStr "error")
          /\ exists m, get "message" (body early) = Some (JStr m)).
Proof.
  unfold lookup_and_update, bind at 1.
  destruct (invoke_run _ (CreateEc2Client region) (ec2_client aws region) st)
    as [r1 [w1 [_ ->]]].
  destruct r1 as [[]|e].
  2:{ exists (Raise e), w1, []. split; [reflexivity|].
      split; [constructor|]. intros early H. discriminate. }
  unfold bind at 1, describe, try_except, bind at 1.
  destruct (invoke_run _ (DescribeInstances region instance_id)
              (describe_instances aws region instance_id)
              (w1, snd st ++ [CreateEc2Client region])) as [r2 [w2 [_ ->]]].
  assert (Htr : forall l,
            ((snd st ++ [CreateEc2Client region])
             ++ [DescribeInstances region instance_id]) ++ l
            = snd st ++ CreateEc2Client region
                :: DescribeInstances region instance_id :: l).
  { intros l. rewrite <- !app_assoc. reflexivity. }
  simpl.
  destruct r2 as [reservations|e].
  - unfold ret at 1. unfold bind.
    destruct (process_reservations_calls reservations false []
                (w2, (snd st ++ [CreateEc2Client region])
                     ++ [DescribeInstances region instance_id]))
      as [r [w3 [calls [-> [Hc [Hearly _]]]]]].
    simpl. rewrite Htr.
    assert (Hall : Forall (fun c => c = DescribeInstances region instance_id
                                    \/ dns_sync_call c)
                     (DescribeInstances region instance_id :: calls)).
    { constructor; [left; reflexivity|].
      apply Forall_forall. intros c Hin. right.
      apply (proj1 (Forall_forall _ _) Hc c Hin). }
    destruct r as [early | [found results]].
    + eexists; eexists; eexists. split; [reflexivity|].
      split; [exact Hall|]. intros early' H. injection H as <-.
      destruct (Hearly early eq_refl) as [i [_ ->]].
      split; [left; reflexivity|]. split; [reflexivity|].
      eexists; reflexivity.
    + destruct found; simpl;
        (eexists; eexists; eexists; split; [reflexivity|];
         split; [exact Hall|]; intros early' H;
         first [discriminate
               |injection H as <-; split; [right; left; reflexivity|];
                split; [reflexivity|]; eexists; reflexivity]).
  - rewrite <- app_assoc. simpl.
    destruct e;
      (eexists; eexists; eexists; split; [reflexivity|]; split;
       [constructor; [left; reflexivity|constructor]|];
       intros early H; injection H as <-; split;
       [first [right; left; reflexivity | right; right; reflexivity]|];
       split; [reflexivity|]; eexists; reflexivity).
Qed.

Lemma detail_fields (event : dict) :
  detail_is_object event ->
  exists detail,
    get_or "detail" (JObj []) event = JObj detail
    /\ get_or "instance-id" JNull detail
       = match nested_instance_id event with Some v => v | None => JNull end.
Proof.
  unfold detail_is_object, get_or, nested_instance_id.
  intros [-> | [o ->]]; eexists; split; reflexivity.
Qed.

Lemma process_reservations_app (a b : list reservation) :
  forall found results (st : state World),
    process_reservations aws (a ++ b) found results st
    = match process_reservations aws a found results st with
      | (Ok (inr (f, res)), st1) => process_reservations aws b f res st1
      | (Ok (inl early), st1) => (Ok (inl early), st1)
      | (Raise e, st1) => (Raise e, st1)
      end.
Proof.
  induction a as [|rsv a IH]; intros found results st.
  - reflexivity.
  - simpl. unfold bind.
    destruct (process_instances aws (Instances rsv) found results st)
      as [[[early | [f res]] | e] st1]; try reflexivity.
    apply IH.
Qed.

(** The handler from the point where the lookup has answered. *)
Lemma handler_after_describe (event detail : dict) (st : state World)
    (w1 w2 : World) (reservations : list reservation) :
  get_or "detail" (JObj []) event = JObj detail ->
  truthy (get_or "instance-id" JNull detail) = true ->
  truthy (get_or "region" JNull event) = true ->
  ec2_client aws (get_or "region" JNull event) (fst st) = (Ok tt, w1) ->
  describe_instances aws (get_or "region" JNull event)
    (get_or "instance-id" JNull detail) w1 = (Ok reservations, w2) ->
  lambda_handler aws render event st
  = Payload.after_loops World render event
      (get_or "instance-id" JNull detail)
      (get_or "region" JNull event)
      (process_reservations aws reservations false []
         (w2, snd st ++
              [CreateEc2Client (get_or "region" JNull event);
               DescribeInstances (get_or "region" JNull event)
                 (get_or "instance-id" JNull detail)])).
Proof.
  intros Hdet Hid Hregion Hc Hd.
  rewrite (handler_validated _ aws render event detail st Hdet).
  cbv zeta. rewrite Hid, Hregion. simpl.
  rewrite (lookup_described _ aws render _ _ st w1 w2 reservations Hc Hd).
  unfold Payload.after_loops.
  destruct (process_reservations aws reservations false [] _)
    as [[[early | [found results]] | e] st']; try reflexivity.
  destruct found; reflexivity.
Qed.

(** The loops at the moment they reach an instance. *)
Lemma reach_instance (before more : list reservation)
    (pre rest : list instance) (i : instance) (f0 f : bool)
    (res0 res : list dict) (st2 sta stb : state World) :
  process_reservations aws before false [] st2 = (Ok (inr (f0, res0)), sta) ->
  process_instances aws pre f0 res0 sta = (Ok (inr (f, res)), stb) ->
  process_reservations aws
    (before ++ {| Instances := pre ++ i :: rest |} :: more) false [] st2
  = match process_instance aws i stb with
    | (Ok (inl early), s) => (Ok (inl early), s)
    | (Ok (inr u), s) =>
        process_reservations aws ({| Instances := rest |} :: more) true
          (res ++ [u]) s
    | (Raise e, s) => (Raise e, s)
    end.
Proof.
  intros Hb Hp. rewrite process_reservations_app, Hb.
  change (process_reservations aws
            ({| Instances := pre ++ i :: rest |} :: more) f0 res0 sta)
    with ((r <- process_instances aws (pre ++ i :: rest) f0 res0;;
           match r with
           | inl early => ret (inl early)
           | inr (f', l) => process_reservations aws more f' l
           end) sta).
  unfold bind at 1. rewrite process_instances_app, Hp.
  simpl. unfold bind.
  destruct (process_instance aws i stb) as [[[early|u]|e] s]; reflexivity.
Qed.

(** One iteration for an instance that has a name. *)
Lemma process_named_instance (i : instance) (d : string) (st : state World) :
  resolve_dns_name i = Some d ->
  (forall ip, PublicIpAddress i = Some ip -> ip <> EmptyString ->
     exists u st',
       do_dns_update aws HOSTED_ZONE_ID d ip DNS_RECORD_TTL st = (Ok u, st')
       /\ process_instance aws i st = (Ok (inr u), st'))
  /\ (str_truthy (PublicIpAddress i) = false ->
      process_instance aws i st
      = (Ok (inr (skipped_result i d (PublicIpAddress i))), st)).
Proof.
  intros Hd. pose proof (resolved_name_nonempty _ _ Hd) as Hdne. split.
  - intros ip Hip Hne.
    destruct (do_dns_update_run _ aws HOSTED_ZONE_ID d ip DNS_RECORD_TTL st)
      as [u [st' [Hu _]]].
    exists u, st'. split; [exact Hu|].
    unfold process_instance. rewrite Hd, Hip.
    apply is_empty_false in Hne. rewrite Hdne, Hne. simpl.
    unfold bind. rewrite Hu. reflexivity.
  - intros Hip. unfold process_instance. rewrite Hd.
    destruct (PublicIpAddress i) as [ip|]; [|reflexivity].
    simpl in Hip. rewrite Hdne.
    destruct (is_empty ip); [reflexivity|discriminate].
Qed.

End Run.

End UpdateDNSMore.

(** ** UpdateDNS: further properties of the handler *)

Module UpdateDNSProps.

Import PyStr PyStrFacts UpdateDNS Aux UpdateDNSFacts UpdateDNSMore.

Lemma skipped_not_error (l : list instance) :
  any_error (map skipped_of l) = false.
Proof. induction l as [|i l IH]; [reflexivity|]. simpl. exact IH. Qed.

Section Properties.

Variable World : Type.
Variable aws : AWS World.
Variable render : json -> string.

(** A whole run on an event whose [detail] is an object or absent. *)
Lemma dns_handler_run (event : dict) (st : state World) :
  detail_is_object event ->
  exists resp w' calls status message,
    lambda_handler aws render event st = (Ok resp, (w', snd st ++ calls))
    /\ Forall (fun c =>
                 c = CreateEc2Client (get_or "region" JNull event)
                 \/ c = DescribeInstances (get_or "region" JNull event)
                        match nested_instance_id event with
                        | Some v => v
                        | None => JNull
                        end
                 \/ dns_sync_call c) calls
    /\ (statusCode resp = 200%Z \/ statusCode resp = 400%Z
        \/ statusCode resp = 404%Z \/ statusCode resp = 500%Z)
    /\ get "status" (body resp) = Some (JStr status)
    /\ get "message" (body resp) = Some (JStr message)
    /\ (statusCode resp = 200%Z <-> status <> "error").
Proof.
  intros Hobj. destruct (detail_fields event Hobj) as [detail [Hdet Hiid]].
  rewrite (handler_validated _ aws render event detail st Hdet).
  cbv zeta. rewrite Hiid.
  set (iid := match nested_instance_id event with
              | Some v => v
              | None => JNull
              end).
  set (region := get_or "region" JNull event).
  destruct (negb (truthy iid) || negb (truthy region)).
  { exists (missing_field_response event), (fst st), [], "error".
    eexists. rewrite app_nil_r. destruct st as [w tr]. simpl.
    split; [reflexivity|]. split; [constructor|].
    split; [right; left; reflexivity|]. split; [reflexivity|].
    split; [reflexivity|]. split; [discriminate|].
    intros H. contradiction H. reflexivity. }
  destruct (lookup_calls _ aws render iid region st)
    as [r [w' [calls [-> [Hcalls Hearly]]]]].
  assert (Hall : Forall (fun c => c = CreateEc2Client region
                                  \/ c = DescribeInstances region iid
                                  \/ dns_sync_call c)
                   (CreateEc2Client region :: calls)).
  { constructor; [left; reflexivity|].
    apply Forall_forall. intros c Hin. right.
    apply (proj1 (Forall_forall _ _) Hcalls c Hin). }
  destruct r as [[early|results]|e].
  - destruct (Hearly early eq_refl) as [Hcode [Hstatus [m Hm]]].
    exists early, w', (CreateEc2Client region :: calls), "error", m.
    split; [reflexivity|]. split; [exact Hall|].
    split; [tauto|]. split; [exact Hstatus|]. split; [exact Hm|].
    split; [|intros H; contradiction H; reflexivity].
    intros H. rewrite H in Hcode.
    destruct Hcode as [Hc | [Hc | Hc]]; discriminate.
  - exists (aggregate_updates render iid region results), w',
           (CreateEc2Client region :: calls),
           (if negb (any_error results) then "success"
            else "partial_success_with_errors").
    assert (Hm : exists m,
              get "message" (body (aggregate_updates render iid region
                                     results)) = Some (JStr m)).
    { unfold aggregate_updates. destruct results; eexists; reflexivity. }
    destruct Hm as [m Hm]. exists m.
    destruct (UpdateDNSSpec.aggregate_shape render iid region results)
      as [Hcode [Hstatus _]].
    split; [reflexivity|]. split; [exact Hall|].
    split; [left; exact Hcode|]. split; [exact Hstatus|].
    split; [exact Hm|]. split; [|intros _; exact Hcode].
    intros _. destruct (any_error results); discriminate.
  - exists (unexpected_response event iid region e), w',
           (CreateEc2Client region :: calls), "error".
    eexists. split; [reflexivity|]. split; [exact Hall|].
    split; [right; right; right; reflexivity|]. split; [reflexivity|].
    split; [reflexivity|]. split; [discriminate|].
    intros H. contradiction H. reflexivity.
Qed.

(** X10.  The DNS-Sync handler returns a response exactly on the events
    it can read: on a JSON object whose [detail] is an object or absent it
    always answers, whatever AWS does, with status 200, 400, 404 or 500,
    a [status] and a [message] in the body, and status "error" exactly
    when the code is not 200.  On any other payload (not an object, or
    with a [detail] that is not an object) it raises at its first lines,
    outside the [try], having touched nothing. *)
Theorem dns_sync_always_answers (payload : json) (st : state World) :
  (forall event, payload = JObj event -> detail_is_object event ->
   exists resp st' status message,
     Payload.update_dns World aws render payload st = (Ok resp, st')
     /\ (statusCode resp = 200%Z \/ statusCode resp = 400%Z
         \/ statusCode resp = 404%Z \/ statusCode resp = 500%Z)
     /\ get "status" (body resp) = Some (JStr status)
     /\ get "message" (body resp) = Some (JStr message)
     /\ (statusCode resp = 200%Z <-> status <> "error"))
  /\ ((forall event, payload = JObj event -> ~ detail_is_object event) ->
      exists e, Payload.update_dns World aws render payload st = (Raise e, st)).
Proof.
  split.
  - intros event -> Hobj.
    destruct (dns_handler_run event st Hobj)
      as [resp [w' [calls [status [message [Hrun [_ H]]]]]]].
    exists resp, (w', snd st ++ calls), status, message.
    split; [exact Hrun|exact H].
  - intros Hbad.
    destruct payload as [| b | z | s | l | event];
      try (eexists; reflexivity).
    pose proof (Hbad event eq_refl) as Hno.
    unfold Payload.update_dns, lambda_handler, get_or.
    destruct (get "detail" event) as [v|] eqn:E.
    + destruct v as [| b | z | s | l | o];
        try (eexists; reflexivity).
      contradiction Hno. right. exists o. exact E.
    + contradiction Hno. left. exact E.
Qed.

(** X11.  What the DNS-Sync handler ever asks of AWS: the EC2 client and
    the lookup for the region and instance of the event, Route 53
    clients, and upserts in the configured zone with the configured TTL
    whose name and address are not empty.  It never lists, starts or
    stops instances. *)
Theorem dns_sync_calls_are_bounded (event : dict) (st : state World) :
  detail_is_object event ->
  exists resp w' calls,
    lambda_handler aws render event st = (Ok resp, (w', snd st ++ calls))
    /\ Forall (fun c =>
                 c = CreateEc2Client (get_or "region" JNull event)
                 \/ c = DescribeInstances (get_or "region" JNull event)
                        match nested_instance_id event with
                        | Some v => v
                        | None => JNull
                        end
                 \/ dns_sync_call c) calls.
Proof.
  intros Hobj.
  destruct (dns_handler_run event st Hobj)
    as [resp [w' [calls [status [message [Hrun [Hcalls _]]]]]]].
  exists resp, w', calls. split; [exact Hrun|exact Hcalls].
Qed.

(** X12.  The event check is a truthiness check: an instance-id or region
    that is null, false, zero, or an empty string, list or object is
    rejected with the 400 and nothing is touched; when both are truthy
    the handler goes on to construct the EC2 client for that region. *)
Theorem falsy_fields_rejected (event : dict) (st : state World) :
  detail_is_object event ->
  let instance_id := match nested_instance_id event with
                     | Some v => v
                     | None => JNull
                     end in
  let region := get_or "region" JNull event in
  (truthy instance_id = false \/ truthy region = false ->
   lambda_handler aws render event st
   = (Ok (missing_field_response event), st))
  /\ (truthy instance_id = true -> truthy region = true ->
      exists r w' calls,
        lambda_handler aws render event st
        = (r, (w', snd st ++ CreateEc2Client region :: calls))).
Proof.
  intros Hobj instance_id region.
  destruct (detail_fields event Hobj) as [detail [Hdet Hiid]].
  pose proof (handler_validated _ aws render event detail st Hdet) as Hrun.
  cbv zeta in Hrun. rewrite Hiid in Hrun.
  fold instance_id region in Hrun. split.
  - intros H. rewrite Hrun.
    destruct H as [-> | ->]; [reflexivity|].
    rewrite orb_true_r. reflexivity.
  - intros H1 H2. rewrite Hrun, H1, H2. simpl.
    destruct (lookup_calls _ aws render instance_id region st)
      as [r [w' [calls [-> _]]]].
    destruct r as [[early|results]|e]; eexists; eexists; eexists; reflexivity.
Qed.

(** X13.  A lookup that fails ends the run before any DNS call: a client
    error gives 404 with the upstream message, any other exception gives
    500 with its text. *)
Theorem describe_failure (event detail : dict) (st : state World)
    (e : exn) (w1 w2 : World) :
  get_or "detail" (JObj []) event = JObj detail ->
  truthy (get_or "instance-id" JNull detail) = true ->
  truthy (get_or "region" JNull event) = true ->
  let instance_id := get_or "instance-id" JNull detail in
  let region := get_or "region" JNull event in
  ec2_client aws region (fst st) = (Ok tt, w1) ->
  describe_instances aws region instance_id w1 = (Raise e, w2) ->
  lambda_handler aws render event st
  = (Ok match e with
        | ClientError _ error_message _ =>
            {| statusCode := 404;
               body := [("status", JStr "error");
                        ("message",
                         JStr ("Failed to describe instance "
                               +++ fmt render instance_id +++ ": "
                               +++ fmt_opt error_message))] |}
        | PyException text =>
            {| statusCode := 500;
               body := [("status", JStr "error");
                        ("message",
                         JStr ("Unexpected error describing instance "
                               +++ fmt render instance_id +++ ": "
                               +++ text))] |}
        end,
     (w2, snd st ++ [CreateEc2Client region;
                     DescribeInstances region instance_id])).
Proof.
  intros Hdet Hid Hregion instance_id region Hc Hd.
  rewrite (handler_validated _ aws render event detail st Hdet).
  cbv zeta. fold instance_id region. subst instance_id region.
  rewrite Hid, Hregion. simpl.
  unfold lookup_and_update, bind at 1, invoke at 1. rewrite Hc.
  unfold bind at 1, describe, try_except, bind at 1, invoke at 1.
  simpl. rewrite Hd. rewrite <- app_assoc.
  destruct e; reflexivity.
Qed.

(** X14.  When the EC2 client cannot be constructed, the outer handler
    catches the exception: the response is 500 with the exception text,
    and it echoes the instance-id, the region and the whole event. *)
Theorem dns_client_failure_is_500 (event detail : dict) (st : state World)
    (e : exn) (w1 : World) :
  get_or "detail" (JObj []) event = JObj detail ->
  truthy (get_or "instance-id" JNull detail) = true ->
  truthy (get_or "region" JNull event) = true ->
  let instance_id := get_or "instance-id" JNull detail in
  let region := get_or "region" JNull event in
  ec2_client aws region (fst st) = (Raise e, w1) ->
  lambda_handler aws render event st
  = (Ok {| statusCode := 500;
           body := [("status", JStr "error");
                    ("message",
                     JStr ("An unexpected error occurred during execution: "
                           +++ exn_text e));
                    ("instance_id", instance_id);
                    ("region", region);
                    ("event", JObj event)] |},
     (w1, snd st ++ [CreateEc2Client region])).
Proof.
  intros Hdet Hid Hregion instance_id region Hc.
  rewrite (handler_validated _ aws render event detail st Hdet).
  cbv zeta. fold instance_id region. subst instance_id region.
  rewrite Hid, Hregion. simpl.
  unfold lookup_and_update, bind at 1, invoke at 1. rewrite Hc.
  reflexivity.
Qed.

(** X15.  Instances that have a usable name but no public address are
    skipped, not failed: when every described instance is like that (and
    there is at least one), no Route 53 call is made, the response is 200
    with status "success", and [updates] holds one "skipped" record per
    instance, in order, whose reason names the missing address. *)
Theorem no_public_ip_is_skipped (event detail : dict) (st : state World)
    (w1 w2 : World) (reservations : list reservation) :
  get_or "detail" (JObj []) event = JObj detail ->
  truthy (get_or "instance-id" JNull detail) = true ->
  truthy (get_or "region" JNull event) = true ->
  let instance_id := get_or "instance-id" JNull detail in
  let region := get_or "region" JNull event in
  ec2_client aws region (fst st) = (Ok tt, w1) ->
  describe_instances aws region instance_id w1 = (Ok reservations, w2) ->
  instances_of reservations <> [] ->
  (forall i, In i (instances_of reservations) ->
     resolve_dns_name i <> None /\ str_truthy (PublicIpAddress i) = false) ->
  exists resp w',
    lambda_handler aws render event st
    = (Ok resp, (w', snd st ++ [CreateEc2Client region;
                                DescribeInstances region instance_id]))
    /\ statusCode resp = 200%Z
    /\ get "status" (body resp) = Some (JStr "success")
    /\ get "updates" (body resp)
       = Some (JList (map (fun i => JObj (skipped_of i))
                          (instances_of reservations)))
    /\ (forall i, In i (instances_of reservations) ->
          get "status" (skipped_of i) = Some (JStr "skipped")
          /\ get "reason" (skipped_of i)
             = Some (JStr ("Skipping instance '" +++ InstanceId i
                           +++ "': missing 'PublicIpAddress'."))).
Proof.
  intros Hdet Hid Hregion instance_id region Hc Hd Hne Hall.
  rewrite (handler_validated _ aws render event detail st Hdet).
  cbv zeta. fold instance_id region.
  change (truthy instance_id = true) in Hid.
  change (truthy region = true) in Hregion.
  rewrite Hid, Hregion. simpl.
  rewrite (lookup_described _ aws render _ _ st w1 w2 reservations Hc Hd).
  destruct (process_reservations_calls _ aws reservations false []
              (w2, snd st ++ [CreateEc2Client region;
                              DescribeInstances region instance_id]))
    as [r [w' [calls [Hrun [_ [_ [_ Hskip]]]]]]].
  destruct (Hskip Hall) as [-> ->]. rewrite Hrun. simpl.
  rewrite app_nil_r.
  destruct (instances_of reservations) as [|i0 l] eqn:El; [contradiction|].
  simpl negb. cbv iota.
  exists (aggregate_updates render instance_id region
            (map skipped_of (i0 :: l))), w'.
  split; [reflexivity|].
  destruct (UpdateDNSSpec.aggregate_shape render instance_id region
              (map skipped_of (i0 :: l))) as [Hcode [Hstatus [Hupd _]]].
  split; [exact Hcode|]. split.
  { rewrite Hstatus, skipped_not_error. reflexivity. }
  split.
  { rewrite Hupd, map_map. reflexivity. }
  intros i Hi. destruct (Hall i Hi) as [Hname Hip].
  assert (Hres : exists d, resolve_dns_name i = Some d).
  { destruct (resolve_dns_name i) as [d|]; [eauto|contradiction]. }
  destruct Hres as [d Ed].
  destruct (skipped_reason i d Ed Hip) as [H1 H2].
  split; [exact H2|exact H1].
Qed.

(** X16.  When aggregation is reached, [updates] has exactly one record
    per instance of the lookup's answer. *)
Theorem one_result_per_instance (event detail : dict) (st st' : state World)
    (w1 w2 : World) (reservations : list reservation)
    (update_results : list dict) :
  get_or "detail" (JObj []) event = JObj detail ->
  truthy (get_or "instance-id" JNull detail) = true ->
  truthy (get_or "region" JNull event) = true ->
  let instance_id := get_or "instance-id" JNull detail in
  let region := get_or "region" JNull event in
  ec2_client aws region (fst st) = (Ok tt, w1) ->
  describe_instances aws region instance_id w1 = (Ok reservations, w2) ->
  lookup_and_update aws render instance_id region st
  = (Ok (inr update_results), st') ->
  exists resp,
    lambda_handler aws render event st = (Ok resp, st')
    /\ get "updates" (body resp) = Some (JList (map JObj update_results))
    /\ length update_results = length (instances_of reservations).
Proof.
  intros Hdet Hid Hregion instance_id region Hc Hd Hl.
  rewrite (handler_validated _ aws render event detail st Hdet).
  cbv zeta. fold instance_id region.
  change (truthy instance_id = true) in Hid.
  change (truthy region = true) in Hregion.
  rewrite Hid, Hregion. simpl. rewrite Hl.
  exists (aggregate_updates render instance_id region update_results).
  split; [reflexivity|].
  destruct (UpdateDNSSpec.aggregate_shape render instance_id region
              update_results) as [_ [_ [Hupd _]]].
  split; [exact Hupd|].
  rewrite (lookup_described _ aws render _ _ st w1 w2 reservations Hc Hd)
    in Hl.
  destruct (process_reservations_calls _ aws reservations false []
              (w2, snd st ++ [CreateEc2Client region;
                              DescribeInstances region instance_id]))
    as [r [w' [calls [Hrun [_ [_ [Hres _]]]]]]].
  rewrite Hrun in Hl. destruct r as [early | [found results]];
    [discriminate|].
  destruct (Hres found results eq_refl) as [_ [more [-> Hlen]]].
  destruct found; simpl in Hl; [|discriminate].
  injection Hl as <- _. simpl. exact Hlen.
Qed.

(** X17.  The DNS-Upsert helper constructs a Route 53 client and, when
    that succeeds, issues exactly one change request, for the zone, name,
    address and TTL it was given; when the client cannot be constructed
    it issues none and reports an error.  In every case the result names
    the record: [dns_name], [ip_address] and action "UPSERT". *)
Theorem upsert_issues_one_change (zone name ip : string) (ttl : Z)
    (st : state World) :
  exists r w' calls,
    do_dns_update aws zone name ip ttl st
    = (Ok r, (w', snd st ++ CreateRoute53Client :: calls))
    /\ (get "dns_name" r = Some (JStr name)
        /\ get "ip_address" r = Some (JStr ip)
        /\ get "action" r = Some (JStr "UPSERT"))
    /\ (forall w1, route53_client aws (fst st) = (Ok tt, w1) ->
          calls = [ChangeResourceRecordSets zone name ip ttl])
    /\ (forall e w1, route53_client aws (fst st) = (Raise e, w1) ->
          calls = [] /\ get "status" r = Some (JStr "error")).
Proof.
  destruct (do_dns_update_calls _ aws zone name ip ttl st)
    as [r [w' [calls [Hrun [Hecho [Hok Hbad]]]]]].
  exists r, w', calls. split; [exact Hrun|]. split; [exact Hecho|].
  split.
  - intros w1 H. apply (Hok w1 H).
  - intros e w1 H. apply (Hbad e w1 H).
Qed.

(** X19.  Without any assumption on the tags: a resolved DNS name is
    never empty and is the value of a PublicDNS or Name tag of the
    instance; an instance with no tags at all has no name. *)
Theorem resolved_name_comes_from_a_tag (i : instance) :
  (forall d, resolve_dns_name i = Some d ->
     d <> EmptyString
     /\ (In {| Key := "PublicDNS"; Value := d |} (tags_of i)
         \/ In {| Key := "Name"; Value := d |} (tags_of i)))
  /\ (tags_of i = [] -> resolve_dns_name i = None).
Proof.
  split.
  - intros d Hd. split.
    { apply is_empty_false. apply (resolved_name_nonempty _ _ Hd). }
    revert Hd. unfold resolve_dns_name. rewrite scan_tags_of.
    unfold scan_tags.
    destruct (scan_dns_name (tags_of i) (None, None))
      as [[Hfst _] | [v [Hfst Hin]]];
      destruct (scan_ec2_name (tags_of i) (None, None))
        as [[Hsnd _] | [n [Hsnd Hnin]]];
      rewrite Hfst, Hsnd; simpl.
    + discriminate.
    + destruct (is_empty n); simpl; [discriminate|].
      intros H. injection H as <-. right. exact Hnin.
    + destruct (is_empty v); simpl; [discriminate|].
      intros H. injection H as <-. left. exact Hin.
    + destruct (is_empty v); simpl.
      * destruct (is_empty n); simpl; [discriminate|].
        intros H. injection H as <-. right. exact Hnin.
      * intros H. injection H as <-. left. exact Hin.
  - intros Hnil. unfold resolve_dns_name. rewrite scan_tags_of, Hnil.
    reflexivity.
Qed.

(** X18.  The 400 for an instance without a usable tag does not undo what
    came before it: the instances ahead of it in the same reservation
    have been processed, their Route 53 calls stay issued, and their
    results are not in the response, which has no [updates]. *)
Theorem unusable_tags_after_updates (event detail : dict) (st st3 : state World)
    (w1 w2 : World) (pre rest : list instance) (i : instance)
    (more : list reservation) (found : bool) (results : list dict) :
  get_or "detail" (JObj []) event = JObj detail ->
  truthy (get_or "instance-id" JNull detail) = true ->
  truthy (get_or "region" JNull event) = true ->
  let instance_id := get_or "instance-id" JNull detail in
  let region := get_or "region" JNull event in
  ec2_client aws region (fst st) = (Ok tt, w1) ->
  describe_instances aws region instance_id w1
  = (Ok ({| Instances := pre ++ i :: rest |} :: more), w2) ->
  process_instances aws pre false []
    (w2, snd st ++ [CreateEc2Client region;
                    DescribeInstances region instance_id])
  = (Ok (inr (found, results)), st3) ->
  resolve_dns_name i = None ->
  lambda_handler aws render event st = (Ok (no_dns_name_response i), st3)
  /\ get "updates" (body (no_dns_name_response i)) = None.
Proof.
  intros Hdet Hid Hregion instance_id region Hc Hd Hpre Hnone.
  split; [|reflexivity].
  rewrite (handler_validated _ aws render event detail st Hdet).
  cbv zeta. fold instance_id region.
  change (truthy instance_id = true) in Hid.
  change (truthy region = true) in Hregion.
  rewrite Hid, Hregion. simpl.
  rewrite (lookup_described _ aws render _ _ st w1 w2 _ Hc Hd).
  change (process_reservations aws
            ({| Instances := pre ++ i :: rest |} :: more) false []
            (w2, snd st ++ [CreateEc2Client region;
                            DescribeInstances region instance_id]))
    with ((r <- process_instances aws (pre ++ i :: rest) false [];;
           match r with
           | inl early => ret (inl early)
           | inr (f, l) => process_reservations aws more f l
           end)
            (w2, snd st ++ [CreateEc2Client region;
                            DescribeInstances region instance_id])).
  unfold bind at 1. rewrite process_instances_app, Hpre.
  simpl. unfold bind, process_instance. rewrite Hnone. reflexivity.
Qed.

(** C2.  For every instance the lookup found (with distinct tag keys,
    as EC2 has them), at the moment the handler's loops reach it: a
    non-empty PublicDNS value is the DNS name; otherwise a non-empty Name
    value is the DNS name; and the handler goes on with that name: with a
    public IP it invokes the DNS-Upsert helper for that name and records
    its result, without one it records a skip for that name, and in both
    cases it continues with the remaining instances.  When neither tag
    has a non-empty value the handler returns the 400 "cannot determine
    DNS name" response then and there, in the state it had on reaching
    the instance, so nothing is processed for the remaining instances. *)
Theorem dns_name_resolution_order
    (event detail : dict) (st sta stb : state World) (w1 w2 : World)
    (before more : list reservation) (pre rest : list instance)
    (i : instance) (f0 f : bool) (res0 res : list dict) :
  get_or "detail" (JObj []) event = JObj detail ->
  truthy (get_or "instance-id" JNull detail) = true ->
  truthy (get_or "region" JNull event) = true ->
  let instance_id := get_or "instance-id" JNull detail in
  let region := get_or "region" JNull event in
  ec2_client aws region (fst st) = (Ok tt, w1) ->
  describe_instances aws region instance_id w1
  = (Ok (before ++ {| Instances := pre ++ i :: rest |} :: more), w2) ->
  process_reservations aws before false []
    (w2, snd st ++ [CreateEc2Client region;
                    DescribeInstances region instance_id])
  = (Ok (inr (f0, res0)), sta) ->
  process_instances aws pre f0 res0 sta = (Ok (inr (f, res)), stb) ->
  NoDup (map Key (tags_of i)) ->
  let go_on := fun (update_result : dict) (st' : state World) =>
    Payload.after_loops World render event instance_id region
      (process_reservations aws ({| Instances := rest |} :: more) true
         (res ++ [update_result]) st') in
  let used := fun (dns_name : string) =>
    resolve_dns_name i = Some dns_name
    /\ (forall ip, PublicIpAddress i = Some ip -> ip <> EmptyString ->
          exists u stc,
            do_dns_update aws HOSTED_ZONE_ID dns_name ip DNS_RECORD_TTL stb
            = (Ok u, stc)
            /\ lambda_handler aws render event st = go_on u stc)
    /\ (str_truthy (PublicIpAddress i) = false ->
        lambda_handler aws render event st
        = go_on (skipped_result i dns_name (PublicIpAddress i)) stb) in
  (forall v, In {| Key := "PublicDNS"; Value := v |} (tags_of i) ->
             v <> EmptyString -> used v)
  /\ (forall v,
        (forall d, In {| Key := "PublicDNS"; Value := d |} (tags_of i) ->
                   d = EmptyString) ->
        In {| Key := "Name"; Value := v |} (tags_of i) ->
        v <> EmptyString -> used v)
  /\ ((forall d, In {| Key := "PublicDNS"; Value := d |} (tags_of i) ->
                 d = EmptyString) ->
      (forall n, In {| Key := "Name"; Value := n |} (tags_of i) ->
                 n = EmptyString) ->
      resolve_dns_name i = None
      /\ lambda_handler aws render event st
         = (Ok (no_dns_name_response i), stb)
      /\ statusCode (no_dns_name_response i) = 400%Z
      /\ get "message" (body (no_dns_name_response i))
         = Some (JStr ("Cannot determine DNS name for instance '"
                       +++ InstanceId i
                       +++ "': No tags found on the instance."))).
Proof.
  intros Hdet Hid Hregion instance_id region Hc Hd Hbefore Hpre Hnd
         go_on used.
  pose proof (handler_after_describe _ aws render event detail st w1 w2 _
                Hdet Hid Hregion Hc Hd) as Hrun.
  fold instance_id region in Hrun.
  rewrite (reach_instance _ aws before more pre rest i f0 f res0 res _
             sta stb Hbefore Hpre) in Hrun.
  assert (Hused : forall d, resolve_dns_name i = Some d -> used d).
  { intros d Hname.
    destruct (process_named_instance _ aws i d stb Hname) as [Hip Hnoip].
    split; [exact Hname|]. split.
    - intros ip Hi Hne. destruct (Hip ip Hi Hne) as [u [stc [Hu Hpi]]].
      exists u, stc. split; [exact Hu|].
      rewrite Hrun, Hpi. reflexivity.
    - intros Hno. rewrite Hrun, (Hnoip Hno). reflexivity. }
  split; [|split].
  - intros v Hin Hv. apply Hused. apply resolve_public_dns; assumption.
  - intros v Hall Hin Hv. apply Hused.
    apply resolve_name_fallback; assumption.
  - intros Hall Hname.
    pose proof (resolve_no_name i Hall Hname) as Hnone.
    split; [exact Hnone|]. split.
    + rewrite Hrun. unfold process_instance. rewrite Hnone. reflexivity.
    + split; reflexivity.
Qed.

End Properties.

Import Scripted Faulty.

Lemma dns_sync_always_answers_witness :
  exists resp st' status message,
    Payload.update_dns unit (describing [both_tags] ["www.example.com"])
      render (JObj web1_event) start0 = (Ok resp, st')
    /\ (statusCode resp = 200%Z \/ statusCode resp = 400%Z
        \/ statusCode resp = 404%Z \/ statusCode resp = 500%Z)
    /\ get "status" (body resp) = Some (JStr status)
    /\ get "message" (body resp) = Some (JStr message)
    /\ (statusCode resp = 200%Z <-> status <> "error").
Proof.
  destruct (dns_sync_always_answers unit
              (describing [both_tags] ["www.example.com"]) render
              (JObj web1_event) start0) as [Hreadable _].
  apply (Hreadable web1_event eq_refl).
  right. eexists. reflexivity.
Defined.

Lemma dns_sync_calls_are_bounded_witness :
  exists resp w' calls,
    lambda_handler (describing [both_tags; name_only] []) render
      web1_event start0 = (Ok resp, (w', snd start0 ++ calls))
    /\ Forall (fun c =>
                 c = CreateEc2Client (JStr "us-east-1")
                 \/ c = DescribeInstances (JStr "us-east-1") (JStr web1)
                 \/ dns_sync_call c) calls.
Proof.
  apply (dns_sync_calls_are_bounded unit
           (describing [both_tags; name_only] []) render web1_event start0).
  right. eexists. reflexivity.
Defined.

Lemma falsy_fields_rejected_witness :
  detail_is_object zero_id_event
  /\ lambda_handler empty_account render zero_id_event start0
     = (Ok (missing_field_response zero_id_event), start0).
Proof.
  assert (H : detail_is_object zero_id_event).
  { right. eexists. reflexivity. }
  split; [exact H|].
  destruct (falsy_fields_rejected unit empty_account render zero_id_event
              start0 H) as [Hfalsy _].
  apply Hfalsy. left. reflexivity.
Defined.

Lemma describe_failure_witness :
  lambda_handler (describe_broken not_found) render web1_event start0
  = (Ok {| statusCode := 404;
           body := [("status", JStr "error");
                    ("message",
                     JStr "Failed to describe instance i-0123456789abcdef0: The instance ID does not exist")] |},
     described).
Proof.
  apply (describe_failure unit (describe_broken not_found) render
           web1_event web1_detail start0 not_found tt tt); reflexivity.
Defined.

Lemma dns_client_failure_is_500_witness :
  lambda_handler no_client render web1_event start0
  = (Ok {| statusCode := 500;
           body := [("status", JStr "error");
                    ("message",
                     JStr "An unexpected error occurred during execution: InvalidRegionError");
                    ("instance_id", JStr web1);
                    ("region", JStr "us-east-1");
                    ("event", JObj web1_event)] |},
     client_made).
Proof.
  apply (dns_client_failure_is_500 unit no_client render
           web1_event web1_detail start0
           (PyException "InvalidRegionError") tt); reflexivity.
Defined.

Lemma no_public_ip_is_skipped_witness :
  exists resp w',
    lambda_handler (describing [no_ip] []) render web1_event start0
    = (Ok resp, (w', snd start0
                     ++ [CreateEc2Client (JStr "us-east-1");
                         DescribeInstances (JStr "us-east-1") (JStr web1)]))
    /\ statusCode resp = 200%Z
    /\ get "status" (body resp) = Some (JStr "success")
    /\ get "updates" (body resp)
       = Some (JList (map (fun i => JObj (skipped_of i)) [no_ip]))
    /\ (forall i, In i [no_ip] ->
          get "status" (skipped_of i) = Some (JStr "skipped")
          /\ get "reason" (skipped_of i)
             = Some (JStr ("Skipping instance '" +++ InstanceId i
                           +++ "': missing 'PublicIpAddress'."))).
Proof.
  apply (no_public_ip_is_skipped unit (describing [no_ip] []) render
           web1_event web1_detail start0 tt tt
           [ {| Instances := [no_ip] |} ]); try reflexivity.
  - discriminate.
  - intros i [<- | []]. split; [vm_compute; discriminate|reflexivity].
Defined.

Lemma one_result_per_instance_witness :
  exists resp,
    lambda_handler (describing [both_tags] ["www.example.com"]) render
      web1_event start0 = (Ok resp, upserted)
    /\ get "updates" (body resp) = Some (JList (map JObj [rejected_result]))
    /\ length [rejected_result] = length [both_tags].
Proof.
  apply (one_result_per_instance unit
           (describing [both_tags] ["www.example.com"]) render
           web1_event web1_detail start0 upserted tt tt
           [ {| Instances := [both_tags] |} ] [rejected_result]);
    reflexivity.
Defined.

Lemma upsert_issues_one_change_witness :
  exists r w' calls,
    do_dns_update no_route53 HOSTED_ZONE_ID "host1" "1.2.3.4" 30 start0
    = (Ok r, (w', snd start0 ++ CreateRoute53Client :: calls))
    /\ calls = [] /\ get "status" r = Some (JStr "error").
Proof.
  destruct (upsert_issues_one_change unit no_route53 HOSTED_ZONE_ID
              "host1" "1.2.3.4" 30 start0)
    as [r [w' [calls [Hrun [_ [_ Hbad]]]]]].
  exists r, w', calls. split; [exact Hrun|].
  apply (Hbad (PyException "NoCredentialsError") tt). reflexivity.
Defined.

Lemma resolved_name_comes_from_a_tag_witness :
  "host1" <> EmptyString
  /\ (In {| Key := "PublicDNS"; Value := "host1" |} (tags_of name_only)
      \/ In {| Key := "Name"; Value := "host1" |} (tags_of name_only)).
Proof.
  destruct (resolved_name_comes_from_a_tag name_only) as [Hsome _].
  apply Hsome. reflexivity.
Defined.

Lemma dns_name_resolution_order_witness :
  NoDup (map Key (tags_of both_tags))
  /\ resolve_dns_name both_tags = Some "www.example.com"
  /\ lambda_handler (describing [both_tags] []) render web1_event start0
     = (Ok (aggregate_updates render (JStr web1) (JStr "us-east-1")
              [upsert_accepted]),
        upserted).
Proof.
  assert (Hnd : NoDup (map Key (tags_of both_tags))).
  { simpl. constructor.
    - simpl. intros [H | []]. discriminate.
    - constructor; [intros []|constructor]. }
  split; [exact Hnd|].
  destruct (dns_name_resolution_order unit (describing [both_tags] [])
              render web1_event web1_detail start0 described described
              tt tt [] [] [] [] both_tags false false [] []
              eq_refl eq_refl eq_refl eq_refl eq_refl eq_refl eq_refl Hnd)
    as [Hfirst _].
  assert (Hin : In {| Key := "PublicDNS"; Value := "www.example.com" |}
                   (tags_of both_tags)).
  { simpl. right. left. reflexivity. }
  assert (Hne : "www.example.com" <> EmptyString) by discriminate.
  destruct (Hfirst "www.example.com" Hin Hne) as [Hname [Hip _]].
  split; [exact Hname|].
  assert (Hip_ne : "1.2.3.4" <> EmptyString) by discriminate.
  destruct (Hip "1.2.3.4" eq_refl Hip_ne) as [u [stc [Hu Hrun]]].
  rewrite Hrun. vm_compute in Hu. injection Hu as <- <-. reflexivity.
Defined.

Lemma unusable_tags_after_updates_witness :
  lambda_handler (describing [both_tags; untagged; name_only] []) render
    web1_event start0
  = (Ok (no_dns_name_response untagged), upserted)
  /\ get "updates" (body (no_dns_name_response untagged)) = None.
Proof.
  apply (unusable_tags_after_updates unit
           (describing [both_tags; untagged; name_only] []) render
           web1_event web1_detail start0 upserted tt tt
           [both_tags] [name_only] untagged [] true
           [ [("dns_name", JStr "www.example.com");
              ("ip_address", JStr "1.2.3.4");
              ("action", JStr "UPSERT");
              ("change_info", JObj [("Id", JStr "/change/C1");
                                    ("Status", JStr "PENDING")]);
              ("status", JStr "success")] ]); reflexivity.
Defined.

End UpdateDNSProps.
